(** * Notes-to-material: the Auto Q&A front end, embedded and verified

    The development follows the TypeScript sources:
    - the types of the Auto Q&A feature ([types/autoqa]): [QuestionStatus],
      [GeneratedQuestion], [CoverageReport], [QAPreviewItem];
    - [mockGenerateQuestions], the front-end mock of the generation;
    - the [ReviewCenter] page: [sampleAutoQAQuestions], the loader of job
      results and the state updates of the review handlers;
    - the hook [useAutoQAGeneration]: the choice of the primary mark;
    - the component [AutoQAPreview]: [statusConfig] and the [stats]
      reduction;
    - [trimToSentence] of [lib/utils].

    JavaScript numbers that the code only uses as integers (marks, loop
    counters, millisecond clock readings) are [Z] or [nat]; a template literal
    [`${n}`] of such a number is its decimal numeral, stdpp's [pretty]. *)

From stdpp Require Import base numbers list strings pretty gmap sorting.
From Stdlib Require Import Ascii QArith.

Local Open Scope string_scope.
Local Open Scope list_scope.
Local Open Scope Z_scope.

(** ** Data model ([types/autoqa]) *)

Inductive QuestionStatus := FOUND | NOT_FOUND | NEEDS_REVIEW | APPROVED.

Inductive AnswerFormat := concise | structured | detailed.

#[global] Instance QuestionStatus_eq_dec : EqDecision QuestionStatus.
Proof. solve_decision. Defined.

#[global] Instance AnswerFormat_eq_dec : EqDecision AnswerFormat.
Proof. solve_decision. Defined.

(** [score] is a JavaScript number in [0,1]; the sources only write decimal
    literals and sums of them, which are kept here as exact rationals. *)
Record RetrievalScore := {
  source : string;
  score : Q
}.

Record GenerationMetadata := {
  prompt_template : string;
  model : string;
  generated_at : option string
}.

(** [marks] has the TypeScript type [2 | 5 | 10]; the type is erased at run
    time, so the field holds whatever integer the producer stored. *)
Record GeneratedQuestion := {
  question_id : string;
  question_text : string;
  marks : Z;
  answer : string;
  answer_format : AnswerFormat;
  page_references : list string;
  diagram_images : list string;
  verbatim_quotes : list string;
  status : QuestionStatus;
  retrieval_scores : list RetrievalScore;
  generation_metadata : GenerationMetadata
}.

(** The fields of [QAPreviewItem] carry the prefix [pv_] where the name is
    already a field of [GeneratedQuestion]. *)
Record QAPreviewItem := {
  pv_question_id : string;
  pv_question_text : string;
  pv_marks : Z;
  pv_status : QuestionStatus;
  page_count : nat;
  confidence_score : option Q
}.

(** ** The clock

    The producers of items read the wall clock, through
    [new Date().toISOString()] and through [Date.now()].  The readings are an
    explicit input of each producer: [toISOString c k] and [Date_now c k] are
    what the [k]-th call (counted from 0) made by that producer returns. *)
Record Clock := {
  toISOString : nat -> string;
  Date_now : nat -> Z
}.

(** ** [mockGenerateQuestions] *)

Module Mock.

Definition item_status (i : nat) : QuestionStatus :=
  if (i mod 5 =? 0)%nat then NOT_FOUND
  else if (i mod 3 =? 0)%nat then NEEDS_REVIEW
  else FOUND.

Definition item_format (mark : Z) : AnswerFormat :=
  if mark =? 2 then concise else if mark =? 5 then structured else detailed.

Definition question (now : string) (mark : Z) (i : nat) (t : Z)
  : GeneratedQuestion :=
  let id := "auto:" +:+ pretty mark +:+ "-" +:+ pretty i +:+ "-" +:+ pretty t in
  let st := item_status i in
  let pageRefs :=
    if decide (st = NOT_FOUND) then [] else ["notes_ch1.pdf:3"] in
  {| question_id := id;
     question_text :=
       "Sample " +:+ pretty mark +:+ "M question " +:+ pretty (i + 1)%nat;
     marks := mark;
     answer :=
       if decide (st = NOT_FOUND) then ""
       else "Sample answer for a " +:+ pretty mark
              +:+ " mark question derived from notes page 3.";
     answer_format := item_format mark;
     page_references := pageRefs;
     diagram_images := [];
     verbatim_quotes :=
       match pageRefs with
       | [] => []
       | _ :: _ => ["Definition of X â€” notes_ch1.pdf:3"]
       end;
     status := st;
     retrieval_scores :=
       map (fun p => {| source := p; score := (82 # 100)%Q |}) pageRefs;
     generation_metadata :=
       {| prompt_template := "notes_gqa_v1";
          model := "gemini-1.5-pro";
          generated_at := Some now |} |}.

Definition preview_item (q : GeneratedQuestion) : QAPreviewItem :=
  {| pv_question_id := question_id q;
     pv_question_text := question_text q;
     pv_marks := marks q;
     pv_status := status q;
     page_count := length (page_references q);
     confidence_score := score <$> head (retrieval_scores q) |}.

(** The two arrays the function fills and returns. *)
Record Output := {
  questions : list GeneratedQuestion;
  preview : list QAPreviewItem
}.

(** One turn of the inner [for] loop.  [now] is read once, before the loops;
    every item makes one call of [Date.now()], so the number of calls made
    before it is the number of questions pushed so far. *)
Definition push (c : Clock) (mark : Z) (acc : Output) (i : nat) : Output :=
  let q :=
    question (toISOString c 0) mark i (Date_now c (length (questions acc))) in
  {| questions := questions acc ++ [q];
     preview := preview acc ++ [preview_item q] |}.

(** The body of [options.marks.forEach]: [i] runs from 0 while
    [i < options.questionsPerMark[mark]]; a missing entry is [undefined] and
    the comparison is false at once. *)
Definition for_mark (c : Clock) (questionsPerMark : gmap Z Z)
    (acc : Output) (mark : Z) : Output :=
  match questionsPerMark !! mark with
  | Some n => fold_left (push c mark) (seq 0 (Z.to_nat n)) acc
  | None => acc
  end.

Definition mockGenerateQuestions (c : Clock) (marks : list Z)
    (questionsPerMark : gmap Z Z) : Output :=
  fold_left (for_mark c questionsPerMark) marks
    {| questions := []; preview := [] |}.

End Mock.

(** ** Items as the backend returns them

    [getJobResults] and [generate] return JSON that the front end reads as
    [any].  [RawItem] has the properties the front end looks at; [None] is a
    missing ([undefined]) property.  [it_answers] lists the properties of the
    [answers] object in the order of [Object.entries].  Strings are the only
    values modelled, and [it_status] is one of the four statuses when it is
    present. *)
Record RawItem := {
  it_id : option string;
  it_question : option string;
  it_question_text : option string;
  it_answers : option (list (string * option string));
  it_answer : option string;
  it_page_references : option (list string);
  it_status : option QuestionStatus
}.

(** [x || d] for a string that may be missing: the empty string is falsy. *)
Definition or_string (x : option string) (d : string) : string :=
  match x with
  | Some s => if decide (s = "") then d else s
  | None => d
  end.

(** A value is truthy when it is a string that is not empty. *)
Definition truthy (x : option string) : bool :=
  match x with
  | Some s => bool_decide (s <> "")
  | None => false
  end.

(** The double quote, for string constants that contain one. *)
Definition dquote : string := String "034"%char EmptyString.

(** [Number(key)] for a property name.  The code only compares the result
    with 2, 5 and 10, so a result that is no integer (NaN, a fraction, an
    infinity) is [None].  The conversion itself belongs to the language, and
    the loader below takes it as a parameter; [Number_of_digits] is the
    conversion on the keys made of decimal digits only (the empty key
    converts to 0), and is not meant for any other key. *)
Definition digit_value (a : ascii) : option Z :=
  let n := Z.of_N (N_of_ascii a) in
  if (48 <=? n) && (n <=? 57) then Some (n - 48) else None.

Fixpoint digits_value (acc : Z) (s : string) : option Z :=
  match s with
  | EmptyString => Some acc
  | String a s' =>
      match digit_value a with
      | Some d => digits_value (10 * acc + d) s'
      | None => None
      end
  end.

Definition Number_of_digits (s : string) : option Z := digits_value 0 s.

(** ** [ReviewCenter] *)

Module ReviewCenter.

(** *** Sample data *)

Definition sample_page (i d off : nat) : string :=
  "notes_ch" +:+ pretty (i / d + 1)%nat +:+ ".pdf:" +:+ pretty (i + off)%nat.

Definition sample_question (now : string) (i : nat) : GeneratedQuestion :=
  {| question_id := "auto-" +:+ pretty (i + 1)%nat;
     question_text :=
       "Explain stack ADT with operations (Q" +:+ pretty (i + 1)%nat +:+ ").";
     marks := default 2 ([2; 5; 10] !! (i mod 3)%nat);
     answer :=
       if (i mod 3 =? 0)%nat
       then "A stack is a linear data structure that follows LIFO principle..."
       else "";
     answer_format :=
       default concise ([concise; structured; detailed] !! (i mod 3)%nat);
     page_references :=
       if (i mod 3 =? 0)%nat then [sample_page i 3 3] else [];
     diagram_images :=
       if (i mod 4 =? 0)%nat then [sample_page i 4 5] else [];
     verbatim_quotes :=
       if (i mod 3 =? 0)%nat
       then [dquote +:+ "Stack follows LIFO principle" +:+ dquote
               +:+ " — " +:+ sample_page i 3 3]
       else [];
     status :=
       default FOUND ([FOUND; NOT_FOUND; NEEDS_REVIEW] !! (i mod 3)%nat);
     retrieval_scores :=
       if (i mod 3 =? 0)%nat
       then [{| source := sample_page i 3 3;
                score := ((85 # 100) + inject_Z (Z.of_nat (i mod 10)) * (1 # 100))%Q |}]
       else [];
     generation_metadata :=
       {| prompt_template := "notes_gqa_v1";
          model := "gemini-1.5-pro";
          generated_at := Some now |} |}.

(** [Array.from({ length: 24 }).map((_, i) => ...)]: the callback of index
    [i] makes the [i]-th call of [new Date().toISOString()]. *)
Definition sampleAutoQAQuestions (c : Clock) : list GeneratedQuestion :=
  map (fun i => sample_question (toISOString c i) i) (seq 0 24).

(** *** Loading the results of a job *)

Section Loader.

Variable Number : string -> option Z.

(** The [marks] cast: 5 and 10 are kept, anything else falls back to 2. *)
Definition cast_mark (mark : string) : Z :=
  if decide (Number mark = Some 5) then 5
  else if decide (Number mark = Some 10) then 10
  else 2.

Definition format_of_key (mark : string) : AnswerFormat :=
  if decide (Number mark = Some 2) then concise
  else if decide (Number mark = Some 5) then structured
  else detailed.

(** The object built for one entry [[mark, ans]] of the answers of the
    result of index [idx]. *)
Definition variant (it : RawItem) (idx : nat) (now : string)
    (entry : string * option string) : GeneratedQuestion :=
  let '(mark, ans) := entry in
  {| question_id :=
       or_string (it_id it) ("gen-" +:+ pretty (idx + 1)%nat) +:+ "-" +:+ mark;
     question_text :=
       or_string (it_question it)
         (or_string (it_question_text it) "Generated question");
     marks := cast_mark mark;
     answer := or_string ans "";
     answer_format := format_of_key mark;
     page_references := default [] (it_page_references it);
     diagram_images := [];
     verbatim_quotes := [];
     status := FOUND;
     retrieval_scores := [];
     generation_metadata :=
       {| prompt_template := "runtime";
          model := "gemini";
          generated_at := Some now |} |}.

(** [it.answers || { '2': it.answer }]: an object, even an empty one, is
    truthy. *)
Definition answers_of (it : RawItem) : list (string * option string) :=
  match it_answers it with
  | Some entries => entries
  | None => [("2", it_answer it)]
  end.

(** The [flatMap] over the results: the variants of one result are appended
    to those of the results before it; each variant reads the clock once. *)
Definition push_variant (c : Clock) (it : RawItem) (idx : nat)
    (acc : list GeneratedQuestion) (entry : string * option string)
  : list GeneratedQuestion :=
  acc ++ [variant it idx (toISOString c (length acc)) entry].

Fixpoint load_from (c : Clock) (idx : nat) (results : list RawItem)
    (acc : list GeneratedQuestion) : list GeneratedQuestion :=
  match results with
  | [] => acc
  | it :: rest =>
      load_from c (S idx) rest
        (fold_left (push_variant c it idx) (answers_of it) acc)
  end.

(** [(r.results || []).flatMap(...)] *)
Definition load_items (c : Clock) (results : option (list RawItem))
  : list GeneratedQuestion :=
  load_from c 0 (default [] results) [].

End Loader.

(** *** The component state and the handlers

    [dynamicItems] is the state [GeneratedQuestion[] | null] of the
    component; what is shown is [dynamicItems || sampleAutoQAQuestions]
    (an array, even an empty one, is truthy). *)

Definition shown (sample : list GeneratedQuestion)
    (dynamicItems : option (list GeneratedQuestion)) : list GeneratedQuestion :=
  match dynamicItems with
  | Some items => items
  | None => sample
  end.

Definition with_answer (it : GeneratedQuestion) (a : string) : GeneratedQuestion :=
  {| question_id := question_id it;
     question_text := question_text it;
     marks := marks it;
     answer := a;
     answer_format := answer_format it;
     page_references := page_references it;
     diagram_images := diagram_images it;
     verbatim_quotes := verbatim_quotes it;
     status := status it;
     retrieval_scores := retrieval_scores it;
     generation_metadata := generation_metadata it |}.

Definition with_question_text (it : GeneratedQuestion) (q : string)
  : GeneratedQuestion :=
  {| question_id := question_id it;
     question_text := q;
     marks := marks it;
     answer := answer it;
     answer_format := answer_format it;
     page_references := page_references it;
     diagram_images := diagram_images it;
     verbatim_quotes := verbatim_quotes it;
     status := status it;
     retrieval_scores := retrieval_scores it;
     generation_metadata := generation_metadata it |}.

Definition with_status (it : GeneratedQuestion) (s : QuestionStatus)
  : GeneratedQuestion :=
  {| question_id := question_id it;
     question_text := question_text it;
     marks := marks it;
     answer := answer it;
     answer_format := answer_format it;
     page_references := page_references it;
     diagram_images := diagram_images it;
     verbatim_quotes := verbatim_quotes it;
     status := s;
     retrieval_scores := retrieval_scores it;
     generation_metadata := generation_metadata it |}.

(** [prev => prev?.map(it => it.question_id === id ? f(it) : it) || null] *)
Definition map_matching (id : string) (f : GeneratedQuestion -> GeneratedQuestion)
    (prev : option (list GeneratedQuestion)) : option (list GeneratedQuestion) :=
  match prev with
  | Some items =>
      Some (map (fun it => if decide (question_id it = id) then f it else it) items)
  | None => None
  end.

(** The calls of [setDynamicItems] in the component.  The identifier is
    [activeAutoQA.question_id], captured when the handler started. *)
Inductive Update :=
  | Loaded (Number : string -> option Z) (c : Clock)
      (results : option (list RawItem))         (* the effect, job_id present *)
  | Cleared                                     (* the effect, no job_id *)
  | RegeneratedIcon (id newAns : string)        (* the icon next to Confidence *)
  | Regenerated (id newAns : string)            (* the Regenerate button *)
  | QuestionEdited (id val : string)            (* onBlur of the question *)
  | AnswerEdited (id val : string)              (* onBlur of the answer *)
  | Approved (id : string).                     (* the Approve button *)

Definition apply_update (u : Update) (prev : option (list GeneratedQuestion))
  : option (list GeneratedQuestion) :=
  match u with
  | Loaded Number c results => Some (load_items Number c results)
  | Cleared => None
  | RegeneratedIcon id newAns =>
      map_matching id
        (fun it =>
           with_status (with_answer it newAns)
             (if decide (status it = APPROVED) then status it else status it))
        prev
  | Regenerated id newAns => map_matching id (fun it => with_answer it newAns) prev
  | QuestionEdited id val => map_matching id (fun it => with_question_text it val) prev
  | AnswerEdited id val => map_matching id (fun it => with_answer it val) prev
  | Approved id => map_matching id (fun it => with_status it APPROVED) prev
  end.

(** The state after a sequence of updates; the component starts with
    [dynamicItems = null]. *)
Definition run (us : list Update) : option (list GeneratedQuestion) :=
  fold_left (fun s u => apply_update u s) us None.

(** The Approve button: nothing happens without loaded items or when the
    active item is not among them; otherwise [updateJobItem] is awaited and,
    unless it throws ([api_ok = false]), the state update is issued. *)
Definition findIndex (id : string) (items : list GeneratedQuestion) : option nat :=
  fst <$> list_find (fun it => question_id it = id) items.

Definition onApprove (dynamicItems : option (list GeneratedQuestion))
    (activeAutoQA : GeneratedQuestion) (api_ok : bool) : option Update :=
  match dynamicItems with
  | None => None
  | Some items =>
      match findIndex (question_id activeAutoQA) items with
      | Some _ => if api_ok then Some (Approved (question_id activeAutoQA)) else None
      | None => None
      end
  end.

End ReviewCenter.

(** ** [useAutoQAGeneration] *)

Module UseAutoQAGeneration.

(** [it.answers && it.answers[k]] *)
Fixpoint property (k : string) (entries : list (string * option string))
  : option string :=
  match entries with
  | [] => None
  | (k', v) :: rest => if decide (k' = k) then v else property k rest
  end.

Definition answer_at (it : RawItem) (k : string) : option string :=
  match it_answers it with
  | Some entries => property k entries
  | None => None
  end.

(** The keys of [['10','5','2']] with a truthy answer, paired with what
    [parseInt(k, 10)] gives for them. *)
Definition markKeys (it : RawItem) : list (string * Z) :=
  filter (fun k => truthy (answer_at it (fst k)) = true)
    [("10", 10); ("5", 5); ("2", 2)].

(** [markKeys[0] ? parseInt(markKeys[0], 10) : (opts.marks[0] || 2)]; the
    number 0 is falsy. *)
Definition primaryMark (marks : list Z) (it : RawItem) : Z :=
  match markKeys it with
  | (_, m) :: _ => m
  | [] =>
      match marks with
      | m :: _ => if m =? 0 then 2 else m
      | [] => 2
      end
  end.

(** The preview item pushed for [it].  A missing [id] or [question] stays
    [undefined] in the code and is the empty string here; [it.status || 'FOUND']
    keeps the status the backend sent.  The code reads [it] as [any]: a
    truthy status that is none of the four of [QuestionStatus] would be
    stored as it is, and is outside this model, as the type of [it_status]
    says. *)
Definition preview_item (marks : list Z) (it : RawItem) : QAPreviewItem :=
  {| pv_question_id := default "" (it_id it);
     pv_question_text := default "" (it_question it);
     pv_marks := primaryMark marks it;
     pv_status := default FOUND (it_status it);
     page_count := length (default [] (it_page_references it));
     confidence_score := None |}.

End UseAutoQAGeneration.

(** ** [AutoQAPreview] *)

Module AutoQAPreview.

Inductive Icon := CheckCircle2 | AlertCircle | ClockIcon.

Record Config := {
  icon : Icon;
  color : string;
  label : string
}.

(** The object literal [statusConfig] has three properties; looking up any
    other key gives [undefined], here [None]. *)
Definition statusConfig (s : QuestionStatus) : option Config :=
  match s with
  | FOUND =>
      Some {| icon := CheckCircle2; color := "text-green-600"; label := "Found" |}
  | NOT_FOUND =>
      Some {| icon := AlertCircle; color := "text-red-600"; label := "Not Found" |}
  | NEEDS_REVIEW =>
      Some {| icon := ClockIcon; color := "text-yellow-600"; label := "Needs Review" |}
  | APPROVED => None
  end.

(** The value of a property of the accumulator: a count, or NaN.  An array
    has fewer than 2^32 elements, so a count is an exact integer. *)
Inductive JsCount := Count (n : nat) | NaN.

#[global] Instance JsCount_eq_dec : EqDecision JsCount.
Proof. solve_decision. Defined.

(** [acc[k]++] on an object given by its properties in insertion order.  A
    present count is replaced by its successor and NaN stays NaN; a missing
    property reads as [undefined], whose successor is NaN, and the
    assignment creates the property after the existing ones. *)
Fixpoint increment (k : QuestionStatus) (acc : list (QuestionStatus * JsCount))
  : list (QuestionStatus * JsCount) :=
  match acc with
  | [] => [(k, NaN)]
  | (k', v) :: rest =>
      if decide (k' = k)
      then (k', match v with Count n => Count (S n) | NaN => NaN end) :: rest
      else (k', v) :: increment k rest
  end.

Definition stats (items : list QAPreviewItem) : list (QuestionStatus * JsCount) :=
  fold_left (fun acc item => increment (pv_status item) acc) items
    [(FOUND, Count 0); (NOT_FOUND, Count 0); (NEEDS_REVIEW, Count 0)].

(** What the component computes for one cell of the summary and for one row
    of the list.  Reading [config.icon] when [config] is [undefined] throws a
    TypeError: the result is [None].  (The layout and the rounded confidence
    percentage are not part of the model.) *)
Record StatCell := {
  cell_icon : Icon;
  cell_color : string;
  cell_count : JsCount;
  cell_label : string
}.

Definition stat_cell (e : QuestionStatus * JsCount) : option StatCell :=
  config ← statusConfig e.1;
  Some {| cell_icon := icon config; cell_color := color config;
          cell_count := e.2; cell_label := label config |}.

Inductive BadgeVariant := badge_default | badge_destructive | badge_secondary.

Record ItemRow := {
  row_marks : Z;
  row_icon : Icon;
  row_color : string;
  row_text : string;
  row_page_count : nat;
  row_variant : BadgeVariant;
  row_label : string
}.

Definition item_row (item : QAPreviewItem) : option ItemRow :=
  config ← statusConfig (pv_status item);
  Some {| row_marks := pv_marks item;
          row_icon := icon config;
          row_color := color config;
          row_text := pv_question_text item;
          row_page_count := page_count item;
          row_variant :=
            if decide (pv_status item = FOUND) then badge_default
            else if decide (pv_status item = NOT_FOUND) then badge_destructive
            else badge_secondary;
          row_label := label config |}.

(** The summary cells, from [Object.entries(stats)], then the rows. *)
Definition render (items : list QAPreviewItem)
  : option (list StatCell * list ItemRow) :=
  cells ← mapM stat_cell (stats items);
  rows ← mapM item_row items;
  Some (cells, rows).

End AutoQAPreview.

(** ** [CoverageReport] ([types/autoqa])

    The interface declares three numbers.  [CoverageReport_entries] is a
    report as the object it is at run time: its property names with their
    values. *)
Record CoverageReport := {
  total_questions : Z;
  found_count : Z;
  not_found_count : Z
}.

Definition CoverageReport_entries (r : CoverageReport) : list (string * Z) :=
  [("total_questions", total_questions r);
   ("found_count", found_count r);
   ("not_found_count", not_found_count r)].

Definition CoverageReport_property (name : string) (r : CoverageReport)
  : option Z :=
  snd <$> head (filter (fun e => e.1 = name) (CoverageReport_entries r)).

(** ** [trimToSentence] ([lib/utils])

    A JavaScript string is a sequence of UTF-16 code units and [length]
    counts them, so the strings of this function are lists of code units. *)

Module Utils.

Definition space : N := 32.
Definition ellipsis : N := 8230.   (* U+2026 *)

(** The class [[.!?]] of the regular expression. *)
Definition is_terminator (c : N) : bool :=
  ((c =? 46) || (c =? 33) || (c =? 63))%N.

(** White space and line terminators, which [trim] strips. *)
Definition is_white (c : N) : bool :=
  ((9 <=? c) && (c <=? 13) || (c =? 32) || (c =? 160) || (c =? 5760)
   || (8192 <=? c) && (c <=? 8202) || (c =? 8232) || (c =? 8233)
   || (c =? 8239) || (c =? 8287) || (c =? 12288) || (c =? 65279))%N.

Fixpoint trimStart (s : list N) : list N :=
  match s with
  | [] => []
  | c :: rest => if is_white c then trimStart rest else s
  end.

Definition trimEnd (s : list N) : list N := rev (trimStart (rev s)).

Definition trim (s : list N) : list N := trimEnd (trimStart s).

(** [text.match(/[^.!?]+[.!?]+/g)].  The two classes are complementary, so a
    match is a maximal run of other characters followed by a maximal run of
    terminators; terminators with nothing before them and a last run
    without a terminator are skipped. *)
Inductive Scan :=
  | Outside
  | InBody (body : list N)
  | InEnd (body enders : list N).

Fixpoint scan (st : Scan) (text : list N) : list (list N) :=
  match text with
  | [] =>
      match st with
      | InEnd body enders => [body ++ enders]
      | _ => []
      end
  | c :: rest =>
      match st with
      | Outside =>
          if is_terminator c then scan Outside rest else scan (InBody [c]) rest
      | InBody body =>
          if is_terminator c then scan (InEnd body [c]) rest
          else scan (InBody (body ++ [c])) rest
      | InEnd body enders =>
          if is_terminator c then scan (InEnd body (enders ++ [c])) rest
          else (body ++ enders) :: scan (InBody [c]) rest
      end
  end.

(** [null] when nothing matches. *)
Definition match_sentences (text : list N) : option (list (list N)) :=
  match scan Outside text with
  | [] => None
  | ms => Some ms
  end.

(** The [for ... of] loop with its [break]. *)
Fixpoint collect (maxChars : Z) (out : list N) (sentences : list (list N))
  : list N :=
  match sentences with
  | [] => out
  | s :: rest =>
      if maxChars <? Z.of_nat (length (out ++ s)) then out
      else collect maxChars (out ++ trim s ++ [space]) rest
  end.

(** [s.slice(0, e)] for an integer [e]: a negative end counts from the end
    of the string. *)
Definition slice_to (s : list N) (e : Z) : list N :=
  let len := Z.of_nat (length s) in
  take (Z.to_nat (if e <? 0 then Z.max (len + e) 0 else Z.min e len)) s.

(** [s.lastIndexOf(c)], -1 when [c] does not occur. *)
Fixpoint lastIndexOf_from (c : N) (s : list N) (i found : Z) : Z :=
  match s with
  | [] => found
  | x :: rest => lastIndexOf_from c rest (i + 1) (if (x =? c)%N then i else found)
  end.

Definition lastIndexOf (c : N) (s : list N) : Z := lastIndexOf_from c s 0 (-1).

Definition trimToSentence (text : list N) (maxChars : Z) : list N :=
  if Z.of_nat (length text) <=? maxChars then text
  else
    let sentences := default [text] (match_sentences text) in
    let out := trim (collect maxChars [] sentences) in
    match out with
    | [] =>
        let slice := slice_to text (maxChars - 1) in
        let lastSpace := lastIndexOf space slice in
        trim (if 40 <? lastSpace then slice_to slice lastSpace else slice)
          ++ [ellipsis]
    | _ :: _ =>
        if Z.of_nat (length out) <? Z.of_nat (length text)
        then out ++ [ellipsis]
        else out
    end.

End Utils.

(** ** The generation pipeline (specification, sections 4.2 to 4.5)

    The pipeline itself runs in the backend of the repository; the front-end
    sources above only call it ([generate], [regenerateItem]).  The
    definitions of this module are therefore written from the specification. *)

Module Pipeline.

(** Modelled from the spec: the error taxonomy of section 7. *)
Inductive ErrorKind := InvalidArgument | Unavailable | Malformed.

(** Modelled from the spec: the data model of section 3, as far as the
    pipeline below reads it. *)
Record SourcePage := {
  document : string;
  page : nat;
  text : string
}.

(** Modelled from the spec: a hit is a page reference with its relevance
    score. *)
Record RetrievalHit := {
  hit_page : SourcePage;
  relevance : Q
}.

(** Modelled from the spec: the request of section 3, with the
    [ungroundable] flag of section 4.2. *)
Record GenerationRequest := {
  topic : string;
  mark_value : Z;
  hits : list RetrievalHit;
  strict_sourcing : bool;
  ungroundable : bool
}.

(** Modelled from the spec: the structured payload a successful parse
    gives (section 4.4, step 2). *)
Record Payload := {
  p_question : string;
  p_answer : string;
  p_not_found : bool;
  p_page_references : list (string * nat);
  p_quotes : list (string * (string * nat))
}.

(** Modelled from the spec: the GeneratedItem of section 3. *)
Record GeneratedItem := {
  id : string;
  question_text : string;
  answer_text : string;
  item_mark : Z;
  answer_format : AnswerFormat;
  page_references : list (string * nat);
  verbatim_quotes : list (string * (string * nat));
  retrieval_scores : list Q;
  status : QuestionStatus;
  attempt_count : nat
}.

(** Modelled from the spec: what is sent to the Generation Client, the
    assembled request or a repair request that carries the offending
    output (section 4.4, step 3). *)
Inductive Prompt :=
  | Initial (req : GenerationRequest)
  | Repair (req : GenerationRequest) (offending : string).

(** Modelled from the spec: the client returns raw text or fails
    (section 4.3). *)
Inductive Reply :=
  | Failure (e : ErrorKind)
  | Raw (output : string).

(** Modelled from the spec: the Prompt Assembler of section 4.2, of which
    only the request it builds matters here: with no hits the request is
    still issued, flagged [ungroundable]. *)
Definition assemble (topic : string) (mark_value : Z)
    (hits : list RetrievalHit) (strict_sourcing : bool) : GenerationRequest :=
  {| topic := topic;
     mark_value := mark_value;
     hits := hits;
     strict_sourcing := strict_sourcing;
     ungroundable := match hits with [] => true | _ :: _ => false end |}.

(** Modelled from the spec: the closed mapping from mark value to answer
    format (section 3 and the design notes). *)
Definition format_of_mark (mark : Z) : option AnswerFormat :=
  if mark =? 2 then Some concise
  else if mark =? 5 then Some structured
  else if mark =? 10 then Some detailed
  else None.

Section Run.

(** Modelled from the spec: the Generation Client is a deterministic mock,
    its reply a function of the number of calls made before and of the
    prompt.  The parser of the fixed schema, the normalised substring test
    for quotes and the budgets are parameters. *)
Variable client : nat -> Prompt -> Reply.
Variable parse : string -> option Payload.
Variable quote_in_page : string -> string -> bool.
Variable max_attempts max_repair_attempts : nat.
Variable retrieval_threshold : Q.

(** Modelled from the spec: the retry and repair loop of section 4.4.  The
    log lists the prompts sent to the client, the latest first.  An
    unavailable client is retried while attempts remain; unparseable output
    starts a repair request while repair attempts and attempts remain; the
    result is [None] when the budget is exhausted. *)
Fixpoint attempt (attempts repairs : nat) (prompt : Prompt)
    (req : GenerationRequest) (log : list Prompt)
  : option Payload * list Prompt :=
  match attempts with
  | O => (None, log)
  | S attempts' =>
      let log' := prompt :: log in
      match client (length log) prompt with
      | Failure Malformed =>
          match repairs with
          | O => (None, log')
          | S repairs' => attempt attempts' repairs' (Repair req "") req log'
          end
      | Failure _ => attempt attempts' repairs prompt req log'
      | Raw output =>
          match parse output with
          | Some payload => (Some payload, log')
          | None =>
              match repairs with
              | O => (None, log')
              | S repairs' =>
                  attempt attempts' repairs' (Repair req output) req log'
              end
          end
      end
  end.

(** Modelled from the spec: the hit with a given (document, page)
    identity, and the checks of a quote and of the cited scores. *)
Definition hit_for (h : list RetrievalHit) (r : string * nat)
  : option RetrievalHit :=
  head (filter (fun x => (document (hit_page x), page (hit_page x)) = r) h).

(** Modelled from the spec: a quote is verified when its cited page is
    among the hits and contains it. *)
Definition quote_verified (h : list RetrievalHit)
    (q : string * (string * nat)) : bool :=
  match hit_for h q.2 with
  | Some x => quote_in_page q.1 (text (hit_page x))
  | None => false
  end.

(** Modelled from the spec: the scores of the cited pages, carried
    through for confidence reporting. *)
Definition cited_scores (h : list RetrievalHit) (p : Payload) : list Q :=
  omap (fun r => relevance <$> hit_for h r) (p_page_references p).

(** Modelled from the spec: the Grounding Classifier of section 4.5, its
    rules in the order given, with the precedence of section 8 (no citation
    at all is NOT_FOUND). *)
Definition classify (p : Payload) (h : list RetrievalHit) : QuestionStatus :=
  if p_not_found p || bool_decide (p_answer p = "")
     || bool_decide (p_page_references p = [])
  then NOT_FOUND
  else if negb (forallb (fun r => bool_decide (is_Some (hit_for h r)))
                  (p_page_references p)
                && forallb (quote_verified h) (p_quotes p))
  then NEEDS_REVIEW
  else if existsb (fun s => negb (Qle_bool retrieval_threshold s))
            (cited_scores h p)
  then NEEDS_REVIEW
  else FOUND.

(** Modelled from the spec: the NOT_FOUND item, with empty answer and no
    page references (the invariant of section 3). *)
Definition not_found_item (id : string) (req : GenerationRequest)
    (calls : nat) : GeneratedItem :=
  {| id := id;
     question_text := topic req;
     answer_text := "";
     item_mark := mark_value req;
     answer_format := default detailed (format_of_mark (mark_value req));
     page_references := [];
     verbatim_quotes := [];
     retrieval_scores := [];
     status := NOT_FOUND;
     attempt_count := calls |}.

(** Modelled from the spec: the item built from a classified payload. *)
Definition item_of (id : string) (req : GenerationRequest) (p : Payload)
    (calls : nat) : GeneratedItem :=
  match classify p (hits req) with
  | NOT_FOUND => not_found_item id req calls
  | st =>
      {| id := id;
         question_text := p_question p;
         answer_text := p_answer p;
         item_mark := mark_value req;
         answer_format := default detailed (format_of_mark (mark_value req));
         page_references := p_page_references p;
         verbatim_quotes := p_quotes p;
         retrieval_scores := cited_scores (hits req) p;
         status := st;
         attempt_count := calls |}
  end.

(** Modelled from the spec: one run of the validator on a request.  An
    [ungroundable] request becomes NOT_FOUND before any call of the client
    (section 4.2); an exhausted budget degrades to NOT_FOUND (section 4.4,
    step 4); a parsed payload goes to the classifier. *)
Definition run_request (id : string) (req : GenerationRequest)
  : GeneratedItem * list Prompt :=
  if ungroundable req then (not_found_item id req 0, [])
  else
    match attempt max_attempts max_repair_attempts (Initial req) req [] with
    | (Some p, log) => (item_of id req p (length log), log)
    | (None, log) => (not_found_item id req (length log), log)
    end.

(** Modelled from the spec: the entry point for one item.  A mark outside
    2, 5, 10 or an empty topic is a caller error (sections 4.4 and 7). *)
Definition generate_item (id topic : string) (mark : Z)
    (h : list RetrievalHit) (strict : bool)
  : ErrorKind + GeneratedItem * list Prompt :=
  match format_of_mark mark with
  | None => inl InvalidArgument
  | Some _ =>
      if decide (topic = "") then inl InvalidArgument
      else inr (run_request id (assemble topic mark h strict))
  end.

End Run.

End Pipeline.

(** ** The grouped view of the Review Center ([grouped])

    The items shown are grouped by question text in a plain object used as
    a map: [(map[key] ||= []).push(it)], then [Object.entries(map)]. *)

Module Grouped.

(** The property names every plain object inherits from
    [Object.prototype].  Reading one of them on the map gives a function
    (an object for [__proto__]): a truthy value without [push]. *)
Definition Object_prototype_names : list string :=
  ["constructor"; "__defineGetter__"; "__defineSetter__"; "hasOwnProperty";
   "__lookupGetter__"; "__lookupSetter__"; "isPrototypeOf";
   "propertyIsEnumerable"; "toString"; "valueOf"; "__proto__";
   "toLocaleString"].

(** The map as its own properties in insertion order. *)
Fixpoint append_to (key : string) (it : GeneratedQuestion)
    (m : list (string * list GeneratedQuestion))
  : list (string * list GeneratedQuestion) :=
  match m with
  | [] => []
  | (k, variants) :: rest =>
      if decide (k = key) then (k, variants ++ [it]) :: rest
      else (k, variants) :: append_to key it rest
  end.

(** [(map[key] ||= []).push(it)] with [key = it.question_text].  An own
    property is an array and gets the item.  Otherwise an inherited property
    is found when the key names one: it is truthy, nothing is assigned, and
    calling its [push] throws a TypeError ([None]).  Otherwise the property
    is created with a new array. *)
Definition push (m : list (string * list GeneratedQuestion))
    (it : GeneratedQuestion) : option (list (string * list GeneratedQuestion)) :=
  let key := question_text it in
  if decide (key ∈ m.*1) then Some (append_to key it m)
  else if decide (key ∈ Object_prototype_names) then None
  else Some (m ++ [(key, [it])]).

Definition collect (source : list GeneratedQuestion)
  : option (list (string * list GeneratedQuestion)) :=
  fold_left (fun m it => m ≫= (fun m => push m it)) source (Some []).

(** A key is an array index when it is the decimal numeral of an integer
    from 0 to 2^32 - 2. *)
Definition array_index (key : string) : option N :=
  match digits_value 0 key with
  | Some n =>
      if decide (pretty (Z.to_N n) = key /\ n <= 4294967294)
      then Some (Z.to_N n) else None
  | None => None
  end.

Definition index_le {V} (a b : N * V) : Prop := (a.1 <= b.1)%N.

#[global] Instance index_le_dec {V} (a b : N * V) : Decision (index_le a b).
Proof. unfold index_le. apply _. Defined.

(** [Object.entries]: the properties whose key is an array index come
    first, in ascending order of the index, then the other properties in
    the order of their creation. *)
Definition Object_entries {V} (m : list (string * V)) : list (string * V) :=
  (merge_sort index_le
     (omap (fun kv => (fun n => (n, kv)) <$> array_index kv.1) m)).*2
  ++ filter (fun kv => array_index kv.1 = None) m.

(** The groups, each a question text with its variants. *)
Definition grouped (source : list GeneratedQuestion)
  : option (list (string * list GeneratedQuestion)) :=
  Object_entries <$> collect source.

End Grouped.

(** ** [EditorPanel]

    The answer editor works on the text area element, when there is one:
    its value (a string, here its code units) and its selection, for which
    the browser keeps [selectionStart <= selectionEnd <= value.length]. *)

Module EditorPanel.

Record Textarea := {
  el_value : list N;
  selectionStart : nat;
  selectionEnd : nat
}.

(** [s.slice(b)] and [s.slice(a, b)] for integers. *)
Definition clamp (len i : Z) : Z :=
  if i <? 0 then Z.max (len + i) 0 else Z.min i len.

Definition slice_from (s : list N) (a : Z) : list N :=
  drop (Z.to_nat (clamp (Z.of_nat (length s)) a)) s.

Definition slice (s : list N) (a b : Z) : list N :=
  let len := Z.of_nat (length s) in
  take (Z.to_nat (clamp len b - clamp len a)) (drop (Z.to_nat (clamp len a)) s).

(** The code units of the markdown image tag for [path]. *)
Definition tag (path : list N) : list N :=
  [33; 91; 100; 105; 97; 103; 114; 97; 109; 93; 40]%N ++ path ++ [41]%N.

(** What [insertDiagram] does: the text passed to [onChange], where the
    caret is put afterwards, and whether [onInsertDiagram] is called. *)
Record Inserted := {
  next : list N;
  caret : option nat;
  notified : bool
}.

Definition insertDiagram (el : option Textarea) (value path : list N)
  : Inserted :=
  match el with
  | None =>
      {| next := value ++ [10]%N ++ tag path; caret := None; notified := false |}
  | Some el =>
      let before := Utils.slice_to (el_value el) (Z.of_nat (selectionStart el)) in
      let after := slice_from (el_value el) (Z.of_nat (selectionEnd el)) in
      {| next := before ++ tag path ++ after;
         caret := Some (length before + length (tag path))%nat;
         notified := true |}
  end.

(** [citeSelection]: the text passed to [onCite], if it is called. *)
Definition citeSelection (el : option Textarea) : option (list N) :=
  match el with
  | None => None
  | Some el =>
      if (selectionStart el =? selectionEnd el)%nat then None
      else Some (slice (el_value el) (Z.of_nat (selectionStart el))
                   (Z.of_nat (selectionEnd el)))
  end.

End EditorPanel.

(** ** The generation settings of [NewJobWizard] *)

Module NewJobWizard.

Inductive Mode := per_chapter | entire_notes.

Record GenerationSettings := {
  marks_to_generate : list Z;
  questions_per_mark : gmap Z Z;
  mode : Mode;
  include_model_problems : bool;
  strict_sourcing : bool;
  retrieval_threshold : Q
}.

Definition initial : GenerationSettings :=
  {| marks_to_generate := [2; 5; 10];
     questions_per_mark := {[ 2 := 5; 5 := 3; 10 := 2 ]};
     mode := per_chapter;
     include_model_problems := true;
     strict_sourcing := true;
     retrieval_threshold := (8 # 10)%Q |}.

(** [onCheckedChange] of the checkbox of [mark]. *)
Definition onMarkChecked (mark : Z) (checked : bool)
    (prev : GenerationSettings) : GenerationSettings :=
  {| marks_to_generate :=
       if checked then marks_to_generate prev ++ [mark]
       else filter (fun m => m <> mark) (marks_to_generate prev);
     questions_per_mark := questions_per_mark prev;
     mode := mode prev;
     include_model_problems := include_model_problems prev;
     strict_sourcing := strict_sourcing prev;
     retrieval_threshold := retrieval_threshold prev |}.

(** [onChange] of the count of [mark]: [parsed] is what [parseInt] gives
    for the text of the field, [None] for NaN; [parseInt(...) || 1]
    replaces NaN and 0 by 1. *)
Definition onCountChange (mark : Z) (parsed : option Z)
    (prev : GenerationSettings) : GenerationSettings :=
  let count :=
    match parsed with
    | Some n => if n =? 0 then 1 else n
    | None => 1
    end in
  {| marks_to_generate := marks_to_generate prev;
     questions_per_mark := <[ mark := count ]> (questions_per_mark prev);
     mode := mode prev;
     include_model_problems := include_model_problems prev;
     strict_sourcing := strict_sourcing prev;
     retrieval_threshold := retrieval_threshold prev |}.

Definition onModeChange (value : Mode) (prev : GenerationSettings)
  : GenerationSettings :=
  {| marks_to_generate := marks_to_generate prev;
     questions_per_mark := questions_per_mark prev;
     mode := value;
     include_model_problems := include_model_problems prev;
     strict_sourcing := strict_sourcing prev;
     retrieval_threshold := retrieval_threshold prev |}.

Definition onModelProblemsChange (checked : bool) (prev : GenerationSettings)
  : GenerationSettings :=
  {| marks_to_generate := marks_to_generate prev;
     questions_per_mark := questions_per_mark prev;
     mode := mode prev;
     include_model_problems := checked;
     strict_sourcing := strict_sourcing prev;
     retrieval_threshold := retrieval_threshold prev |}.

Definition onStrictSourcingChange (checked : bool) (prev : GenerationSettings)
  : GenerationSettings :=
  {| marks_to_generate := marks_to_generate prev;
     questions_per_mark := questions_per_mark prev;
     mode := mode prev;
     include_model_problems := include_model_problems prev;
     strict_sourcing := checked;
     retrieval_threshold := retrieval_threshold prev |}.

(** What the user can do on the settings step.  There is a checkbox for
    each of 2, 5, 10, shown checked when the mark is among the marks to
    generate, and a click reports the opposite state; there is a count field
    for each mark to generate. *)
Inductive step : GenerationSettings -> GenerationSettings -> Prop :=
  | click_mark s mark :
      mark ∈ [2; 5; 10] ->
      step s (onMarkChecked mark
                (negb (bool_decide (mark ∈ marks_to_generate s))) s)
  | type_count s mark parsed :
      mark ∈ marks_to_generate s ->
      step s (onCountChange mark parsed s)
  | select_mode s value : step s (onModeChange value s)
  | switch_model_problems s checked : step s (onModelProblemsChange checked s)
  | switch_strict_sourcing s checked : step s (onStrictSourcingChange checked s).

Inductive reachable : GenerationSettings -> Prop :=
  | reachable_initial : reachable initial
  | reachable_step s s' : reachable s -> step s s' -> reachable s'.

End NewJobWizard.

(** ** The preview of [useAutoQAGeneration]

    [items] is [resp?.output?.items || []]; one preview item is pushed for
    each. *)
Definition runGeneration_preview (marks : list Z)
    (items : option (list RawItem)) : list QAPreviewItem :=
  UseAutoQAGeneration.preview_item marks <$> default [] items.

(** ** Regenerating the active item ([ReviewCenter])

    The Regenerate button and the icon next to the confidence badge both
    call [regenerateItem(activeAutoQA.question_text, 5, [activeAutoQA.marks])].
    [client question marks] is what that call resolves to: [None] when it
    throws, otherwise the [item] of the response, which may be missing.  A
    client that is a function of the request gives the same response to the
    same request. *)

(** [regen.item?.answers?.[String(marks)] || regen.item?.answer || ''] *)
Definition regenerated_answer (item : option RawItem) (mark : Z) : string :=
  or_string (item ≫= fun it => UseAutoQAGeneration.answer_at it (pretty mark))
    (or_string (item ≫= it_answer) "").

Inductive RegenerateControl := RegenerateButton | RegenerateIcon.

(** The click handler: the update it passes to [setDynamicItems], or [None]
    when the call throws and only a toast is shown. *)
Definition onRegenerate (control : RegenerateControl)
    (client : string -> Z -> option (option RawItem))
    (activeAutoQA : GeneratedQuestion) : option ReviewCenter.Update :=
  match client (question_text activeAutoQA) (marks activeAutoQA) with
  | Some item =>
      let newAns := regenerated_answer item (marks activeAutoQA) in
      Some (match control with
            | RegenerateButton =>
                ReviewCenter.Regenerated (question_id activeAutoQA) newAns
            | RegenerateIcon =>
                ReviewCenter.RegeneratedIcon (question_id activeAutoQA) newAns
            end)
  | None => None
  end.

(** ** [PocketSummaryDoc]

    One card per item, with the answer cut by [trimToSentence]; the default
    of [maxAnswerChars] is 180. *)

Module PocketSummaryDoc.

Record QAItem := {
  qa_id : string;
  qa_question : string;
  qa_answer : list N;
  qa_marks : option Z
}.

Record Card := {
  card_key : string;
  card_question : string;
  shortAns : list N;
  isLastInRow : bool
}.

Definition cards (items : list QAItem) (maxAnswerChars : option Z) : list Card :=
  imap (fun idx it =>
          {| card_key := qa_id it;
             card_question := qa_question it;
             shortAns :=
               Utils.trimToSentence (qa_answer it) (default 180 maxAnswerChars);
             isLastInRow := (idx mod 2 =? 1)%nat |})
       items.

End PocketSummaryDoc.

(** ** Example inputs *)

(** Two clocks, for two calls made at different times. *)
Definition example_clock : Clock :=
  {| toISOString := fun k => "2024-01-01T00:00:00.00" +:+ pretty k +:+ "Z";
     Date_now := fun k => 1704067200000 + Z.of_nat k |}.

Definition later_clock : Clock :=
  {| toISOString := fun k => "2024-01-01T00:00:05.00" +:+ pretty k +:+ "Z";
     Date_now := fun k => 1704067205000 + Z.of_nat k |}.

(** The job result of the Review Center integration test. *)
Definition stack_result : RawItem :=
  {| it_id := Some "abc123";
     it_question := Some "What is a stack?";
     it_question_text := None;
     it_answers := Some [("2", Some "A stack is LIFO structure.")];
     it_answer := None;
     it_page_references := Some [];
     it_status := None |}.

(** The same result with a second answer, under the key 7. *)
Definition odd_mark_result : RawItem :=
  {| it_id := Some "abc123";
     it_question := Some "What is a stack?";
     it_question_text := None;
     it_answers :=
       Some [("2", Some "A stack is LIFO structure.");
             ("7", Some "A stack is a LIFO structure with push and pop.")];
     it_answer := None;
     it_page_references := Some [];
     it_status := None |}.

(** A generated item that has a question and no answers. *)
Definition unanswered_result : RawItem :=
  {| it_id := Some "abc125";
     it_question := Some "What is a queue?";
     it_question_text := None;
     it_answers := None;
     it_answer := None;
     it_page_references := None;
     it_status := None |}.

(** The client of the Review Center integration test: every call resolves
    to an item whose answers hold one entry, under the key 2. *)
Definition test_client (question : string) (mark : Z) : option (option RawItem) :=
  Some (Some {| it_id := None;
                it_question := None;
                it_question_text := None;
                it_answers := Some [("2", Some "regen answer")];
                it_answer := None;
                it_page_references := None;
                it_status := None |}).

(** The item loaded from [stack_result], and the same item once approved. *)
Definition stack_item : GeneratedQuestion :=
  ReviewCenter.variant Number_of_digits stack_result 0
    (toISOString example_clock 0) ("2", Some "A stack is LIFO structure.").

Definition stack_item_approved : GeneratedQuestion :=
  ReviewCenter.with_status stack_item APPROVED.

(** Two preview items, one FOUND and one APPROVED. *)
Definition found_preview : QAPreviewItem :=
  {| pv_question_id := "abc123";
     pv_question_text := "What is a stack?";
     pv_marks := 2;
     pv_status := FOUND;
     page_count := 1;
     confidence_score := None |}.

Definition approved_preview : QAPreviewItem :=
  {| pv_question_id := "abc124";
     pv_question_text := "What is a queue?";
     pv_marks := 5;
     pv_status := APPROVED;
     page_count := 1;
     confidence_score := None |}.

(** A report over three items of which one is FOUND, one NOT_FOUND and one
    NEEDS_REVIEW. *)
Definition example_report : CoverageReport :=
  {| total_questions := 3; found_count := 1; not_found_count := 1 |}.

(** The code units of an ASCII string. *)
Fixpoint code_units (s : string) : list N :=
  match s with
  | EmptyString => []
  | String a rest => N_of_ascii a :: code_units rest
  end.

(** * Properties *)

(** ** Loops as folds *)

Lemma fold_left_invariant {A B} (f : A -> B -> A) (P : A -> Prop) (l : list B) :
  (forall a b, P a -> P (f a b)) -> forall a, P a -> P (fold_left f l a).
Proof.
  intros Hstep. induction l as [|b l IH]; intros a Ha; simpl; [done|].
  apply IH, Hstep, Ha.
Qed.

(** ** Producers of items *)

(** The invariant of a NOT_FOUND item: no answer and no page reference. *)
Definition not_found_is_empty (q : GeneratedQuestion) : Prop :=
  status q = NOT_FOUND -> answer q = "" /\ page_references q = [].

Lemma mock_question_not_found now mark i t :
  not_found_is_empty (Mock.question now mark i t).
Proof.
  unfold not_found_is_empty, Mock.question; simpl.
  intros Hst. rewrite !decide_True by exact Hst. done.
Qed.

Lemma mock_questions_forall (P : GeneratedQuestion -> Prop) c marks qpm :
  (forall now mark i t, P (Mock.question now mark i t)) ->
  Forall P (Mock.questions (Mock.mockGenerateQuestions c marks qpm)).
Proof.
  intros HP. unfold Mock.mockGenerateQuestions.
  apply (fold_left_invariant _ (fun acc => Forall P (Mock.questions acc)));
    [|constructor].
  intros acc mark Hacc. unfold Mock.for_mark.
  destruct (qpm !! mark) as [n|]; [|done].
  apply (fold_left_invariant _ (fun acc => Forall P (Mock.questions acc)));
    [|done].
  intros acc' i Hacc'. simpl. apply Forall_app. split; [done|].
  constructor; [apply HP|constructor].
Qed.

Lemma sample_question_not_found now i :
  not_found_is_empty (ReviewCenter.sample_question now i).
Proof.
  unfold not_found_is_empty, ReviewCenter.sample_question.
  cbn [status answer page_references].
  generalize (i mod 3)%nat as r. intros [|[|[|n]]]; simpl; intros Hst; done.
Qed.

Lemma sample_forall (P : GeneratedQuestion -> Prop) c :
  (forall now i, P (ReviewCenter.sample_question now i)) ->
  Forall P (ReviewCenter.sampleAutoQAQuestions c).
Proof.
  intros HP. unfold ReviewCenter.sampleAutoQAQuestions.
  apply Forall_map, Forall_forall. intros i _. apply HP.
Qed.

Lemma load_items_forall (P : GeneratedQuestion -> Prop) Number c results :
  (forall it idx now entry, P (ReviewCenter.variant Number it idx now entry)) ->
  Forall P (ReviewCenter.load_items Number c results).
Proof.
  intros HP. unfold ReviewCenter.load_items.
  generalize (default [] results) as rs.
  assert (Hnil : Forall P []) by constructor. revert Hnil.
  generalize (@nil GeneratedQuestion) as acc. generalize 0%nat as idx.
  intros idx acc Hacc rs. revert idx acc Hacc.
  induction rs as [|it rs IH]; intros idx acc Hacc; simpl; [done|].
  apply IH.
  apply (fold_left_invariant _ (Forall P)); [|done].
  intros acc' entry Hacc'. unfold ReviewCenter.push_variant.
  apply Forall_app. split; [done|]. constructor; [apply HP|constructor].
Qed.

Lemma load_items_found Number c results :
  Forall (fun q => status q = FOUND) (ReviewCenter.load_items Number c results).
Proof.
  apply load_items_forall. intros it idx now [mark ans]. reflexivity.
Qed.

(** ** The states of the Review Center *)

(** Loaded items are FOUND, and the handlers only ever set APPROVED: no
    other status occurs in [dynamicItems]. *)
Definition found_or_approved (q : GeneratedQuestion) : Prop :=
  status q = FOUND \/ status q = APPROVED.

Lemma map_matching_forall (P : GeneratedQuestion -> Prop) id f prev items :
  (forall it, P it -> P (f it)) ->
  (forall l, prev = Some l -> Forall P l) ->
  ReviewCenter.map_matching id f prev = Some items -> Forall P items.
Proof.
  intros Hf Hprev. destruct prev as [l|]; simpl; [|done].
  intros [= <-]. specialize (Hprev l eq_refl).
  apply Forall_map. eapply Forall_impl; [exact Hprev|].
  intros it Hit. simpl. case_decide; auto.
Qed.

Lemma apply_update_found_or_approved u prev items :
  (forall l, prev = Some l -> Forall found_or_approved l) ->
  ReviewCenter.apply_update u prev = Some items ->
  Forall found_or_approved items.
Proof.
  intros Hprev. destruct u; simpl.
  - intros [= <-]. eapply Forall_impl; [apply load_items_found|].
    intros q Hq. left. exact Hq.
  - done.
  - apply map_matching_forall; [|done].
    intros it Hit. unfold found_or_approved in *. simpl. case_decide; done.
  - apply map_matching_forall; done.
  - apply map_matching_forall; done.
  - apply map_matching_forall; done.
  - apply map_matching_forall; [|done]. intros it _. right. reflexivity.
Qed.

Lemma run_snoc us u :
  ReviewCenter.run (us ++ [u]) = ReviewCenter.apply_update u (ReviewCenter.run us).
Proof. unfold ReviewCenter.run. rewrite fold_left_app. reflexivity. Qed.

Lemma run_found_or_approved us items :
  ReviewCenter.run us = Some items -> Forall found_or_approved items.
Proof.
  revert items. induction us as [|u us IH] using rev_ind; intros items.
  - done.
  - rewrite run_snoc. apply apply_update_found_or_approved. exact IH.
Qed.

(** C1. Every item a producer of the front end builds (the mock generator,
    the sample data of the Review Center, the loader of job results) and
    every item the Review Center shows after any sequence of its state
    updates satisfies: if the status is NOT_FOUND, the answer is the empty
    string and the list of page references is empty. *)
Theorem not_found_items_are_empty :
  forall (c : Clock) (marks : list Z) (questionsPerMark : gmap Z Z)
         (Number : string -> option Z) (results : option (list RawItem))
         (us : list ReviewCenter.Update),
    Forall not_found_is_empty
      (Mock.questions (Mock.mockGenerateQuestions c marks questionsPerMark))
    /\ Forall not_found_is_empty (ReviewCenter.sampleAutoQAQuestions c)
    /\ Forall not_found_is_empty (ReviewCenter.load_items Number c results)
    /\ Forall not_found_is_empty
         (ReviewCenter.shown (ReviewCenter.sampleAutoQAQuestions c)
            (ReviewCenter.run us)).
Proof.
  intros c marks qpm Number results us.
  assert (Hsample : Forall not_found_is_empty (ReviewCenter.sampleAutoQAQuestions c))
    by (apply sample_forall, sample_question_not_found).
  split; [apply mock_questions_forall, mock_question_not_found|].
  split; [exact Hsample|].
  split.
  - eapply Forall_impl; [apply load_items_found|].
    intros q Hq Hnf. congruence.
  - destruct (ReviewCenter.run us) as [items|] eqn:Hrun; simpl; [|exact Hsample].
    eapply Forall_impl; [exact (run_found_or_approved _ _ Hrun)|].
    intros q [Hq|Hq] Hnf; congruence.
Qed.

Lemma sample_not_approved c :
  Forall (fun q => status q <> APPROVED) (ReviewCenter.sampleAutoQAQuestions c).
Proof.
  apply sample_forall. intros now i. unfold ReviewCenter.sample_question.
  cbn [status]. generalize (i mod 3)%nat as r. intros [|[|[|n]]]; done.
Qed.

(** What the Approve handler issues, if anything, is the [Approved] update
    of the active item. *)
Lemma onApprove_issues_approved dynamicItems activeAutoQA api_ok u :
  ReviewCenter.onApprove dynamicItems activeAutoQA api_ok = Some u ->
  u = ReviewCenter.Approved (question_id activeAutoQA)
  /\ exists items, dynamicItems = Some items.
Proof.
  unfold ReviewCenter.onApprove. destruct dynamicItems as [items|]; [|done].
  destruct (ReviewCenter.findIndex _ _); [|done].
  destruct api_ok; [|done]. intros [= <-]. eauto.
Qed.

(** The update that Approve issues does not look at the status of the item
    it marks.  That no NOT_FOUND item is ever approved rests on what
    [dynamicItems] can hold ([run_found_or_approved]), not on the handler. *)
Lemma approved_update_sets_status id prev items :
  ReviewCenter.apply_update (ReviewCenter.Approved id) prev = Some items ->
  Forall (fun it => question_id it = id -> status it = APPROVED) items.
Proof.
  destruct prev as [l|]; simpl; [|done]. intros [= <-].
  apply Forall_map, Forall_forall. intros it _. simpl.
  case_decide; [reflexivity|done].
Qed.

(** C2. In the Review Center, along any sequence of state updates, an item
    shown with status APPROVED after an update either was APPROVED already,
    or the update is the one the Approve button issues for this item and
    the item was FOUND or NEEDS_REVIEW before; an item that is NOT_FOUND is
    never APPROVED after an update. *)
Theorem approved_only_from_found_by_approve :
  forall (c : Clock) (us : list ReviewCenter.Update) (u : ReviewCenter.Update)
         (i : nat) (before after : GeneratedQuestion),
    ReviewCenter.shown (ReviewCenter.sampleAutoQAQuestions c)
      (ReviewCenter.run us) !! i = Some before ->
    ReviewCenter.shown (ReviewCenter.sampleAutoQAQuestions c)
      (ReviewCenter.apply_update u (ReviewCenter.run us)) !! i = Some after ->
    (status after = APPROVED ->
       status before = APPROVED
       \/ (u = ReviewCenter.Approved (question_id before)
           /\ (status before = FOUND \/ status before = NEEDS_REVIEW)))
    /\ (status before = NOT_FOUND -> status after <> APPROVED).
Proof.
  intros c us u i before after Hbefore Hafter.
  assert (Hmain : status after = APPROVED ->
            status before = APPROVED
            \/ (u = ReviewCenter.Approved (question_id before)
                /\ (status before = FOUND \/ status before = NEEDS_REVIEW))).
  { intros Ha.
    assert (Hloaded : forall Number c' results,
              ReviewCenter.load_items Number c' results !! i = Some after -> False).
    { intros Number c' results Hl.
      pose proof (Forall_lookup_1 _ _ _ _ (load_items_found Number c' results) Hl).
      simpl in *. congruence. }
    assert (Hsample :
              ReviewCenter.sampleAutoQAQuestions c !! i = Some after -> False).
    { intros Hl.
      exact (Forall_lookup_1 _ _ _ _ (sample_not_approved c) Hl Ha). }
    destruct (ReviewCenter.run us) as [items|] eqn:Hrun; simpl in Hbefore.
    - pose proof (Forall_lookup_1 _ _ _ _ (run_found_or_approved _ _ Hrun) Hbefore)
        as Hfa.
      destruct u as [N c' r| |id a|id a|id v|id v|id]; simpl in Hafter;
        try (exfalso; eauto; fail);
        rewrite list_lookup_fmap, Hbefore in Hafter; simpl in Hafter;
        injection Hafter as <-;
        destruct (decide (question_id before = id)) as [<-|Hne];
        simpl in Ha; try (left; exact Ha).
      + left. destruct (decide (status before = APPROVED)); exact Ha.
      + destruct Hfa as [Hf|Hf]; [right|left; exact Hf].
        split; [reflexivity|left; exact Hf].
    - destruct u; simpl in Hafter;
        try (exfalso; eauto; fail);
        rewrite Hbefore in Hafter; injection Hafter as <-; left; exact Ha. }
  split; [exact Hmain|].
  intros Hnf Ha. destruct (Hmain Ha) as [H|[_ [H|H]]]; congruence.
Qed.

Lemma approved_only_from_found_by_approve_witness :
  (status stack_item_approved = APPROVED ->
     status stack_item = APPROVED
     \/ (ReviewCenter.Approved "abc123-2"
           = ReviewCenter.Approved (question_id stack_item)
         /\ (status stack_item = FOUND \/ status stack_item = NEEDS_REVIEW)))
  /\ (status stack_item = NOT_FOUND -> status stack_item_approved <> APPROVED).
Proof.
  apply (approved_only_from_found_by_approve example_clock
           [ReviewCenter.Loaded Number_of_digits example_clock (Some [stack_result])]
           (ReviewCenter.Approved "abc123-2") 0%nat);
    vm_compute; reflexivity.
Defined.

(** ** Marks and answer formats *)

(** The number of answers of a list of results: one item is built for
    each. *)
Definition answers_count (results : list RawItem) : nat :=
  sum_list (map (fun it => length (ReviewCenter.answers_of it)) results).

Lemma load_from_length Number c results : forall idx acc,
  length (ReviewCenter.load_from Number c idx results acc)
  = (length acc + answers_count results)%nat.
Proof.
  induction results as [|it rs IH]; intros idx acc; simpl.
  - unfold answers_count. simpl. lia.
  - rewrite IH. unfold answers_count. simpl.
    assert (Hfold : forall es acc0,
              length (fold_left (ReviewCenter.push_variant Number c it idx) es acc0)
              = (length acc0 + length es)%nat).
    { induction es as [|e es IHes]; intros acc0; simpl; [lia|].
      rewrite IHes. unfold ReviewCenter.push_variant.
      rewrite length_app. simpl. lia. }
    rewrite Hfold. lia.
Qed.

(** C3, as the code has it.  A caller of [useAutoQAGeneration] who asks for
    the mark 7 is not turned away: the generated item gets a preview item,
    with marks 7.  A caller who asks for the mark 0 gets a preview item with
    marks 2.  The mock generator called with the mark 7 builds a question
    with marks 7.  The loader of the Review Center builds an item for the
    key 7 of a result, with marks 2. *)
Lemma invalid_marks_are_not_rejected :
  pv_marks <$> runGeneration_preview [7] (Some [unanswered_result]) = [7]
  /\ pv_marks <$> runGeneration_preview [0] (Some [unanswered_result]) = [2]
  /\ (fun q => (marks q, answer_format q))
       <$> Mock.questions
             (Mock.mockGenerateQuestions example_clock [7] {[ 7 := 1 ]})
     = [(7, detailed)]
  /\ Number_of_digits "7" = Some 7
  /\ marks <$> ReviewCenter.load_items Number_of_digits example_clock
                 (Some [odd_mark_result])
     = [2; 2].
Proof. vm_compute. repeat split; reflexivity. Qed.

(** C3, amended.  The front end rejects no mark.  The loader builds one item
    for every answers key of every result; the item has marks 5 or 10 when
    the key converts to 5 or 10 and marks 2 for every other key, valid or
    not.  [useAutoQAGeneration] builds one preview item for every generated
    item, whatever marks the caller asked for; its mark is 10 when the item
    has an answer under 10, else 5 when it has one under 5, else 2 when it
    has one under 2, and otherwise the first mark the caller asked for,
    whatever its value, or 2 when the caller asked for none or the first
    is 0. *)
Theorem marks_are_cast_never_rejected :
  forall (Number : string -> option Z) (c : Clock) (results : list RawItem),
    length (ReviewCenter.load_items Number c (Some results))
      = answers_count results
    /\ (forall it idx now mark ans,
          let q := ReviewCenter.variant Number it idx now (mark, ans) in
          (Number mark = Some 5 /\ marks q = 5)
          \/ (Number mark = Some 10 /\ marks q = 10)
          \/ (Number mark <> Some 5 /\ Number mark <> Some 10 /\ marks q = 2))
    /\ (forall requested items,
          pv_marks <$> runGeneration_preview requested items
          = UseAutoQAGeneration.primaryMark requested <$> default [] items)
    /\ (forall requested it,
          let has k := truthy (UseAutoQAGeneration.answer_at it k) in
          let m := UseAutoQAGeneration.primaryMark requested it in
          (has "10" = true -> m = 10)
          /\ (has "10" = false -> has "5" = true -> m = 5)
          /\ (has "10" = false -> has "5" = false -> has "2" = true -> m = 2)
          /\ (has "10" = false -> has "5" = false -> has "2" = false ->
              m = match requested with
                  | first :: _ => if first =? 0 then 2 else first
                  | [] => 2
                  end)).
Proof.
  intros Number c results. split; [|split; [|split]].
  - unfold ReviewCenter.load_items. rewrite load_from_length. reflexivity.
  - intros it idx now mark ans. simpl. unfold ReviewCenter.cast_mark.
    destruct (decide (Number mark = Some 5)) as [H5|H5]; [left; done|].
    destruct (decide (Number mark = Some 10)) as [H10|H10]; [right; left; done|].
    right; right. done.
  - intros requested items. unfold runGeneration_preview.
    rewrite <- list_fmap_compose. reflexivity.
  - intros requested it. simpl.
    unfold UseAutoQAGeneration.primaryMark, UseAutoQAGeneration.markKeys.
    rewrite !filter_cons, filter_nil. simpl.
    destruct (truthy (UseAutoQAGeneration.answer_at it "10")),
      (truthy (UseAutoQAGeneration.answer_at it "5")),
      (truthy (UseAutoQAGeneration.answer_at it "2"));
      repeat case_decide; try done; repeat split; intros; done.
Qed.

(** The mock generator and the sample data follow the mapping of the
    specification on the marks 2, 5 and 10. *)
Definition format_follows_mark (q : GeneratedQuestion) : Prop :=
  (marks q = 2 -> answer_format q = concise)
  /\ (marks q = 5 -> answer_format q = structured)
  /\ (marks q = 10 -> answer_format q = detailed).

Lemma mock_format_follows_mark c requested questionsPerMark :
  Forall format_follows_mark
    (Mock.questions (Mock.mockGenerateQuestions c requested questionsPerMark)).
Proof.
  apply mock_questions_forall. intros now mark i t.
  unfold format_follows_mark, Mock.question, Mock.item_format. cbn [marks answer_format].
  repeat split; intros ->; reflexivity.
Qed.

Lemma sample_format_follows_mark c :
  Forall format_follows_mark (ReviewCenter.sampleAutoQAQuestions c).
Proof.
  apply sample_forall. intros now i.
  unfold format_follows_mark, ReviewCenter.sample_question.
  cbn [marks answer_format]. generalize (i mod 3)%nat as r.
  intros [|[|[|n]]]; simpl; repeat split; done.
Qed.

Lemma loaded_format_follows_valid_key Number it idx now mark ans :
  Number mark = Some 2 \/ Number mark = Some 5 \/ Number mark = Some 10 ->
  format_follows_mark (ReviewCenter.variant Number it idx now (mark, ans)).
Proof.
  unfold format_follows_mark. simpl.
  unfold ReviewCenter.cast_mark, ReviewCenter.format_of_key.
  intros [H|[H|H]]; rewrite H; simpl; repeat split; done.
Qed.

(** C6, at the failing input.  For the answers keys 2 and 7 the loader
    builds two items with the same mark value 2, the first concise and the
    second detailed: the fallback of the marks cast is 2, the fallback of
    the format is detailed. *)
Theorem loaded_format_not_determined_by_mark :
  (fun q => (marks q, answer_format q))
    <$> ReviewCenter.load_items Number_of_digits example_clock
          (Some [odd_mark_result])
  = [(2, concise); (2, detailed)].
Proof. vm_compute. reflexivity. Qed.

(** ** The mock generator and the clock *)

(** An item without what it takes from the clock: the identifier, which
    ends with the reading of [Date.now()], and [generated_at]. *)
Definition without_clock (q : GeneratedQuestion) : GeneratedQuestion :=
  {| question_id := "";
     question_text := question_text q;
     marks := marks q;
     answer := answer q;
     answer_format := answer_format q;
     page_references := page_references q;
     diagram_images := diagram_images q;
     verbatim_quotes := verbatim_quotes q;
     status := status q;
     retrieval_scores := retrieval_scores q;
     generation_metadata :=
       {| prompt_template := prompt_template (generation_metadata q);
          model := model (generation_metadata q);
          generated_at := None |} |}.

Definition preview_without_clock (p : QAPreviewItem) : QAPreviewItem :=
  {| pv_question_id := "";
     pv_question_text := pv_question_text p;
     pv_marks := pv_marks p;
     pv_status := pv_status p;
     page_count := page_count p;
     confidence_score := confidence_score p |}.

(** Two runs of a loop that keep their accumulators related. *)
Lemma fold_left_related {A B} (f g : A -> B -> A) (R : A -> A -> Prop)
    (l : list B) :
  (forall a a' b, R a a' -> R (f a b) (g a' b)) ->
  forall a a', R a a' -> R (fold_left f l a) (fold_left g l a').
Proof.
  intros Hstep. induction l as [|b l IH]; intros a a' Haa'; simpl; [done|].
  apply IH, Hstep, Haa'.
Qed.

Definition same_but_clock (o1 o2 : Mock.Output) : Prop :=
  without_clock <$> Mock.questions o1 = without_clock <$> Mock.questions o2
  /\ preview_without_clock <$> Mock.preview o1
     = preview_without_clock <$> Mock.preview o2.

Lemma mock_same_but_clock c1 c2 requested questionsPerMark :
  same_but_clock (Mock.mockGenerateQuestions c1 requested questionsPerMark)
    (Mock.mockGenerateQuestions c2 requested questionsPerMark).
Proof.
  unfold Mock.mockGenerateQuestions.
  apply (fold_left_related _ _ same_but_clock); [|done].
  intros a a' mark Haa'. unfold Mock.for_mark.
  destruct (questionsPerMark !! mark) as [n|]; [|done].
  apply (fold_left_related _ _ same_but_clock); [|done].
  intros o o' i [Hq Hp]. split; simpl; rewrite !fmap_app; f_equal; done.
Qed.

(** C4, as the code has it.  Two calls with the same marks and counts, made
    at different times, give different question ids and different
    generation metadata. *)
Lemma mock_calls_differ_with_the_clock :
  question_id <$> Mock.questions
                    (Mock.mockGenerateQuestions example_clock [2] {[ 2 := 1 ]})
    = ["auto:2-0-1704067200000"]
  /\ question_id <$> Mock.questions
                       (Mock.mockGenerateQuestions later_clock [2] {[ 2 := 1 ]})
    = ["auto:2-0-1704067205000"]
  /\ generation_metadata <$> Mock.questions
                    (Mock.mockGenerateQuestions example_clock [2] {[ 2 := 1 ]})
    <> generation_metadata <$> Mock.questions
                    (Mock.mockGenerateQuestions later_clock [2] {[ 2 := 1 ]})
  /\ Mock.mockGenerateQuestions example_clock [2] {[ 2 := 1 ]}
     <> Mock.mockGenerateQuestions later_clock [2] {[ 2 := 1 ]}.
Proof.
  split; [vm_compute; reflexivity|].
  split; [vm_compute; reflexivity|].
  split; [vm_compute; discriminate|].
  intros Heq.
  apply (f_equal (fun o => question_id <$> Mock.questions o)) in Heq.
  vm_compute in Heq. discriminate.
Qed.

(** [generated_at] of every item is the time read at the start of the
    call. *)
Lemma mock_generated_at c requested questionsPerMark :
  Forall (fun q => generated_at (generation_metadata q)
                   = Some (toISOString c 0%nat))
    (Mock.questions (Mock.mockGenerateQuestions c requested questionsPerMark)).
Proof.
  unfold Mock.mockGenerateQuestions.
  apply (fold_left_invariant _
           (fun acc => Forall (fun q => generated_at (generation_metadata q)
                                        = Some (toISOString c 0%nat))
                         (Mock.questions acc))); [|constructor].
  intros acc mark Hacc. unfold Mock.for_mark.
  destruct (questionsPerMark !! mark) as [n|]; [|done].
  apply (fold_left_invariant _
           (fun acc => Forall (fun q => generated_at (generation_metadata q)
                                        = Some (toISOString c 0%nat))
                         (Mock.questions acc))); [|done].
  intros acc' i Hacc'. simpl. apply Forall_app. split; [done|].
  constructor; [reflexivity|constructor].
Qed.

(** The update of the icon keeps the status of the item in both branches,
    so it is the update of the button. *)
Lemma icon_update_is_button_update id newAns prev :
  ReviewCenter.apply_update (ReviewCenter.RegeneratedIcon id newAns) prev
  = ReviewCenter.apply_update (ReviewCenter.Regenerated id newAns) prev.
Proof.
  destruct prev as [items|]; [|reflexivity]. simpl. f_equal.
  apply map_ext. intros it.
  destruct (decide (question_id it = id)); [|reflexivity].
  destruct (decide (status it = APPROVED)); reflexivity.
Qed.

Lemma regenerated_twice id newAns prev :
  ReviewCenter.apply_update (ReviewCenter.Regenerated id newAns)
    (ReviewCenter.apply_update (ReviewCenter.Regenerated id newAns) prev)
  = ReviewCenter.apply_update (ReviewCenter.Regenerated id newAns) prev.
Proof.
  destruct prev as [items|]; [|reflexivity]. simpl. f_equal.
  rewrite map_map. apply map_ext. intros it.
  destruct (decide (question_id it = id)) as [Hid|Hid].
  - cbn [question_id ReviewCenter.with_answer].
    destruct (decide (question_id it = id)); [reflexivity|done].
  - destruct (decide (question_id it = id)); [done|reflexivity].
Qed.

Lemma regenerated_keeps id newAns items :
  Forall2
    (fun before after =>
       question_id after = question_id before
       /\ status after = status before
       /\ generation_metadata after = generation_metadata before
       /\ answer after
          = if decide (question_id before = id) then newAns else answer before)
    items
    (map (fun it => if decide (question_id it = id)
                    then ReviewCenter.with_answer it newAns else it) items).
Proof.
  induction items as [|it items IH]; simpl; constructor; [|exact IH].
  destruct (decide (question_id it = id)); simpl; done.
Qed.

(** The client of the integration test, asked twice about the item loaded
    from the test's job result. *)
Lemma regenerating_twice_example :
  let loaded := ReviewCenter.Loaded Number_of_digits example_clock
                  (Some [stack_result]) in
  onRegenerate RegenerateButton test_client stack_item
    = Some (ReviewCenter.Regenerated "abc123-2" "regen answer")
  /\ answer <$> default [] (ReviewCenter.run
                   [loaded; ReviewCenter.Regenerated "abc123-2" "regen answer"])
     = ["regen answer"]
  /\ ReviewCenter.run
       [loaded; ReviewCenter.Regenerated "abc123-2" "regen answer";
        ReviewCenter.Regenerated "abc123-2" "regen answer"]
     = ReviewCenter.run
         [loaded; ReviewCenter.Regenerated "abc123-2" "regen answer"].
Proof. vm_compute. repeat split; reflexivity. Qed.

(** C4, amended.  For fixed marks and counts, two calls of the mock
    generator give the same questions and the same preview items in every
    field other than the question id and [generated_at]; [generated_at] is
    the time of the call.  Regenerating an item of the Review Center with a
    client that answers the same request in the same way issues the same
    update each time, so two regenerations leave the state that one leaves:
    the item has the answer of the response, and the id, the status and the
    generation metadata of every item are what they were.  When the call
    fails no update is issued. *)
Theorem generation_repeatable_but_id_and_time :
  forall (c1 c2 : Clock) (requested : list Z) (questionsPerMark : gmap Z Z),
    let o1 := Mock.mockGenerateQuestions c1 requested questionsPerMark in
    let o2 := Mock.mockGenerateQuestions c2 requested questionsPerMark in
    without_clock <$> Mock.questions o1 = without_clock <$> Mock.questions o2
    /\ preview_without_clock <$> Mock.preview o1
       = preview_without_clock <$> Mock.preview o2
    /\ Forall (fun q => generated_at (generation_metadata q)
                        = Some (toISOString c1 0%nat)) (Mock.questions o1)
    /\ (forall control client active item prev,
          client (question_text active) (marks active) = Some item ->
          exists u,
            onRegenerate control client active = Some u
            /\ (forall again,
                  question_id again = question_id active ->
                  question_text again = question_text active ->
                  marks again = marks active ->
                  onRegenerate control client again = Some u)
            /\ ReviewCenter.apply_update u (ReviewCenter.apply_update u prev)
               = ReviewCenter.apply_update u prev
            /\ (forall items,
                  prev = Some items ->
                  exists items',
                    ReviewCenter.apply_update u prev = Some items'
                    /\ Forall2
                         (fun before after =>
                            question_id after = question_id before
                            /\ status after = status before
                            /\ generation_metadata after
                               = generation_metadata before
                            /\ answer after
                               = if decide (question_id before
                                            = question_id active)
                                 then regenerated_answer item (marks active)
                                 else answer before)
                         items items'))
    /\ (forall control client active,
          client (question_text active) (marks active) = None ->
          onRegenerate control client active = None).
Proof.
  intros c1 c2 requested questionsPerMark o1 o2.
  destruct (mock_same_but_clock c1 c2 requested questionsPerMark) as [Hq Hp].
  split; [exact Hq|]. split; [exact Hp|].
  split; [apply mock_generated_at|]. split.
  - intros control client active item prev Hitem.
    unfold onRegenerate. rewrite Hitem. cbv zeta.
    eexists. split; [reflexivity|]. split; [|split].
    + intros again Hid Htext Hmarks. rewrite Hid, Htext, Hmarks, Hitem.
      reflexivity.
    + destruct control.
      * apply regenerated_twice.
      * rewrite !icon_update_is_button_update. apply regenerated_twice.
    + intros items ->. eexists. split.
      * destruct control; [|rewrite icon_update_is_button_update]; reflexivity.
      * apply regenerated_keeps.
  - intros control client active Hnone. unfold onRegenerate.
    rewrite Hnone. reflexivity.
Qed.

(** ** The preview: counts and lookups *)

Definition count_status (s : QuestionStatus) (items : list QAPreviewItem) : nat :=
  length (filter (fun item => pv_status item = s) items).

Definition has_status (s : QuestionStatus) (items : list QAPreviewItem) : bool :=
  existsb (fun item => bool_decide (pv_status item = s)) items.

(** The accumulator of [stats] always has this shape: the three counts of
    the initial object, then APPROVED with NaN once an APPROVED item was
    seen. *)
Definition summary (f n r : nat) (approved : bool)
  : list (QuestionStatus * AutoQAPreview.JsCount) :=
  [(FOUND, AutoQAPreview.Count f); (NOT_FOUND, AutoQAPreview.Count n);
   (NEEDS_REVIEW, AutoQAPreview.Count r)]
  ++ (if approved then [(APPROVED, AutoQAPreview.NaN)] else []).

Lemma increment_summary s f n r approved :
  AutoQAPreview.increment s (summary f n r approved)
  = match s with
    | FOUND => summary (S f) n r approved
    | NOT_FOUND => summary f (S n) r approved
    | NEEDS_REVIEW => summary f n (S r) approved
    | APPROVED => summary f n r true
    end.
Proof. destruct s, approved; reflexivity. Qed.

Lemma count_status_cons s item items :
  count_status s (item :: items)
  = ((if decide (pv_status item = s) then 1 else 0) + count_status s items)%nat.
Proof.
  unfold count_status. rewrite filter_cons. case_decide; reflexivity.
Qed.

Lemma has_status_cons s item items :
  has_status s (item :: items)
  = bool_decide (pv_status item = s) || has_status s items.
Proof. reflexivity. Qed.

Lemma stats_from_summary items : forall f n r approved,
  fold_left (fun acc item => AutoQAPreview.increment (pv_status item) acc)
    items (summary f n r approved)
  = summary (f + count_status FOUND items) (n + count_status NOT_FOUND items)
      (r + count_status NEEDS_REVIEW items)
      (approved || has_status APPROVED items).
Proof.
  induction items as [|item items IH]; intros f n r approved.
  - simpl. unfold count_status, has_status. simpl.
    rewrite !Nat.add_0_r, orb_false_r. reflexivity.
  - cbn [fold_left]. rewrite increment_summary.
    rewrite !count_status_cons, has_status_cons.
    destruct (pv_status item) eqn:Hst; rewrite IH; simpl;
      f_equal; try lia; try (f_equal; lia);
      rewrite ?orb_true_r; reflexivity.
Qed.

Lemma stats_summary items :
  AutoQAPreview.stats items
  = summary (count_status FOUND items) (count_status NOT_FOUND items)
      (count_status NEEDS_REVIEW items) (has_status APPROVED items).
Proof.
  unfold AutoQAPreview.stats.
  change [(FOUND, AutoQAPreview.Count 0); (NOT_FOUND, AutoQAPreview.Count 0);
          (NEEDS_REVIEW, AutoQAPreview.Count 0)] with (summary 0 0 0 false).
  rewrite stats_from_summary. reflexivity.
Qed.

Lemma count_status_perm s items items' :
  items ≡ₚ items' -> count_status s items = count_status s items'.
Proof. intros Hp. unfold count_status. rewrite Hp. reflexivity. Qed.

Lemma has_status_perm s items items' :
  items ≡ₚ items' -> has_status s items = has_status s items'.
Proof.
  induction 1 as [|x l l' _ IH|x y l|l l' l'' _ IH1 _ IH2].
  - reflexivity.
  - rewrite !has_status_cons, IH. reflexivity.
  - rewrite !has_status_cons.
    destruct (bool_decide (pv_status x = s)), (bool_decide (pv_status y = s));
      reflexivity.
  - congruence.
Qed.

(** C5. The status counts of the preview do not depend on the order of the
    items: a permutation of the list gives the same [stats] object. *)
Theorem stats_order_independent :
  forall items items' : list QAPreviewItem,
    items ≡ₚ items' -> AutoQAPreview.stats items = AutoQAPreview.stats items'.
Proof.
  intros items items' Hp. rewrite !stats_summary.
  rewrite !(count_status_perm _ _ _ Hp), (has_status_perm _ _ _ Hp).
  reflexivity.
Qed.

Lemma stats_order_independent_witness :
  AutoQAPreview.stats [found_preview; approved_preview; found_preview]
  = AutoQAPreview.stats [approved_preview; found_preview; found_preview].
Proof.
  apply (stats_order_independent
           [found_preview; approved_preview; found_preview]
           [approved_preview; found_preview; found_preview]).
  apply perm_swap.
Defined.

Lemma has_status_false s items :
  Forall (fun item => pv_status item <> s) items -> has_status s items = false.
Proof.
  induction 1 as [|item items Hne _ IH]; [reflexivity|].
  rewrite has_status_cons, IH, (bool_decide_eq_false_2 _ Hne). reflexivity.
Qed.

Lemma has_status_true s items :
  Exists (fun item => pv_status item = s) items -> has_status s items = true.
Proof.
  induction 1 as [item items He|item items _ IH]; rewrite has_status_cons.
  - rewrite (bool_decide_eq_true_2 _ He). reflexivity.
  - rewrite IH. apply orb_true_r.
Qed.

Lemma statusConfig_defined s :
  s <> APPROVED -> is_Some (AutoQAPreview.statusConfig s).
Proof. destruct s; simpl; intros Hs; [eauto..|done]. Qed.

(** C9. [statusConfig] has no entry for APPROVED and an entry for each
    other status.  When no item is APPROVED, [stats] holds the three
    counts, every lookup of a configuration is defined and the component
    renders.  When some item is APPROVED, [stats] gets the property
    APPROVED with the value NaN, the lookup for that item is undefined and
    rendering fails. *)
Theorem preview_defined_iff_no_approved :
  forall items : list QAPreviewItem,
    AutoQAPreview.statusConfig APPROVED = None
    /\ (forall s, s <> APPROVED -> is_Some (AutoQAPreview.statusConfig s))
    /\ (Forall (fun item => pv_status item <> APPROVED) items ->
        AutoQAPreview.stats items
          = [(FOUND, AutoQAPreview.Count (count_status FOUND items));
             (NOT_FOUND, AutoQAPreview.Count (count_status NOT_FOUND items));
             (NEEDS_REVIEW, AutoQAPreview.Count (count_status NEEDS_REVIEW items))]
        /\ Forall (fun item =>
                     is_Some (AutoQAPreview.statusConfig (pv_status item))) items
        /\ is_Some (AutoQAPreview.render items))
    /\ (Exists (fun item => pv_status item = APPROVED) items ->
        AutoQAPreview.stats items
          = [(FOUND, AutoQAPreview.Count (count_status FOUND items));
             (NOT_FOUND, AutoQAPreview.Count (count_status NOT_FOUND items));
             (NEEDS_REVIEW, AutoQAPreview.Count (count_status NEEDS_REVIEW items));
             (APPROVED, AutoQAPreview.NaN)]
        /\ Exists (fun item =>
                     AutoQAPreview.statusConfig (pv_status item) = None) items
        /\ AutoQAPreview.render items = None).
Proof.
  intros items. split; [reflexivity|]. split; [apply statusConfig_defined|].
  split.
  - intros Hno.
    assert (Hcfg : Forall (fun item =>
              is_Some (AutoQAPreview.statusConfig (pv_status item))) items).
    { eapply Forall_impl; [exact Hno|]. intros item. apply statusConfig_defined. }
    split; [|split; [exact Hcfg|]].
    + rewrite stats_summary, (has_status_false _ _ Hno). reflexivity.
    + unfold AutoQAPreview.render.
      rewrite stats_summary, (has_status_false _ _ Hno). simpl.
      assert (Hrows : is_Some (mapM AutoQAPreview.item_row items)).
      { apply mapM_is_Some. eapply Forall_impl; [exact Hcfg|].
        intros item [cfg Hc]. unfold AutoQAPreview.item_row.
        simpl. rewrite Hc. simpl. eauto. }
      destruct Hrows as [rows ->]. simpl. eauto.
  - intros Hsome. split; [|split].
    + rewrite stats_summary, (has_status_true _ _ Hsome). reflexivity.
    + eapply Exists_impl; [exact Hsome|]. intros item ->. reflexivity.
    + unfold AutoQAPreview.render.
      rewrite stats_summary, (has_status_true _ _ Hsome). reflexivity.
Qed.

(** ** The coverage report *)

(** C7, as the code has it.  A report has no property
    [needs_review_count]. *)
Lemma coverage_report_lacks_needs_review_count :
  CoverageReport_property "needs_review_count" example_report = None.
Proof. reflexivity. Qed.

(** C7, amended.  A CoverageReport has exactly three counts: the total,
    named [total_questions], [found_count] and [not_found_count]; it has no
    count of the items that need review. *)
Theorem coverage_report_has_three_counts :
  forall r : CoverageReport,
    fst <$> CoverageReport_entries r
      = ["total_questions"; "found_count"; "not_found_count"]
    /\ CoverageReport_property "total_questions" r = Some (total_questions r)
    /\ CoverageReport_property "found_count" r = Some (found_count r)
    /\ CoverageReport_property "not_found_count" r = Some (not_found_count r)
    /\ CoverageReport_property "needs_review_count" r = None.
Proof. intros r. repeat split; reflexivity. Qed.

(** ** The short circuit of the pipeline *)

(** C8. A request assembled with no hits ends as a NOT_FOUND item with
    empty answer and no page reference, and no prompt is sent to the
    Generation Client, whatever the client, the parser and the budgets are.
    In particular this is so for the topic "quantum foam" with mark 10. *)
Theorem empty_hits_short_circuit :
  forall (client : nat -> Pipeline.Prompt -> Pipeline.Reply)
         (parse : string -> option Pipeline.Payload)
         (quote_in_page : string -> string -> bool)
         (max_attempts max_repair_attempts : nat) (retrieval_threshold : Q)
         (id topic : string) (mark : Z) (strict : bool),
    let result :=
      Pipeline.run_request client parse quote_in_page max_attempts
        max_repair_attempts retrieval_threshold id
        (Pipeline.assemble topic mark [] strict) in
    Pipeline.status result.1 = NOT_FOUND
    /\ Pipeline.answer_text result.1 = ""
    /\ Pipeline.page_references result.1 = []
    /\ result.2 = []
    /\ Pipeline.generate_item client parse quote_in_page max_attempts
         max_repair_attempts retrieval_threshold id "quantum foam" 10 [] strict
       = inr (Pipeline.not_found_item id
                (Pipeline.assemble "quantum foam" 10 [] strict) 0, []).
Proof. intros. repeat split; reflexivity. Qed.

(** The log only grows, and the first attempt already logs its prompt. *)
Lemma attempt_log_grows client parse : forall attempts repairs prompt req log,
  (length log
   <= length (Pipeline.attempt client parse attempts repairs prompt req log).2)%nat.
Proof.
  induction attempts as [|a IH]; intros repairs prompt req log; simpl; [lia|].
  destruct (client (length log) prompt) as [[]|output].
  - etrans; [|apply IH]. simpl. lia.
  - etrans; [|apply IH]. simpl. lia.
  - destruct repairs as [|r]; [simpl; lia|]. etrans; [|apply IH]. simpl. lia.
  - destruct (parse output); [simpl; lia|].
    destruct repairs as [|r]; [simpl; lia|]. etrans; [|apply IH]. simpl. lia.
Qed.

Lemma attempt_calls_client client parse attempts repairs prompt req log :
  (length log
   < length (Pipeline.attempt client parse (S attempts) repairs prompt req log).2)%nat.
Proof.
  simpl. destruct (client (length log) prompt) as [[]|output].
  - eapply Nat.lt_le_trans; [|apply attempt_log_grows]. simpl. lia.
  - eapply Nat.lt_le_trans; [|apply attempt_log_grows]. simpl. lia.
  - destruct repairs as [|r]; [simpl; lia|].
    eapply Nat.lt_le_trans; [|apply attempt_log_grows]. simpl. lia.
  - destruct (parse output); [simpl; lia|].
    destruct repairs as [|r]; [simpl; lia|].
    eapply Nat.lt_le_trans; [|apply attempt_log_grows]. simpl. lia.
Qed.

(** With hits and a budget of at least one attempt the client is called:
    the log of the run is not empty. *)
Lemma hits_reach_the_client client parse quote_in_page attempts repairs
    threshold id topic mark h hs strict :
  (Pipeline.run_request client parse quote_in_page (S attempts) repairs
     threshold id (Pipeline.assemble topic mark (h :: hs) strict)).2 <> [].
Proof.
  unfold Pipeline.run_request. cbn [Pipeline.assemble Pipeline.ungroundable].
  pose proof (attempt_calls_client client parse attempts repairs
                (Pipeline.Initial (Pipeline.assemble topic mark (h :: hs) strict))
                (Pipeline.assemble topic mark (h :: hs) strict) []) as Hlt.
  unfold Pipeline.assemble in Hlt.
  destruct (Pipeline.attempt _ _ _ _ _ _ _) as [[p|] log];
    cbn [snd] in *; intros ->; simpl in Hlt; lia.
Qed.

(** ** [trimToSentence] *)

Section Trim.

Import Utils.

Lemma trimStart_length s : (length (trimStart s) <= length s)%nat.
Proof.
  induction s as [|c s IH]; simpl; [lia|].
  destruct (is_white c); simpl; lia.
Qed.

Lemma trimEnd_length s : (length (trimEnd s) <= length s)%nat.
Proof.
  unfold trimEnd. rewrite length_rev.
  etrans; [apply trimStart_length|]. rewrite length_rev. lia.
Qed.

Lemma trim_length s : (length (trim s) <= length s)%nat.
Proof.
  unfold trim. etrans; [apply trimEnd_length|]. apply trimStart_length.
Qed.

(** A trailing blank is stripped. *)
Lemma trimEnd_snoc_white s c :
  is_white c = true -> trimEnd (s ++ [c]) = trimEnd s.
Proof.
  intros Hc. unfold trimEnd. rewrite rev_unit. simpl. rewrite Hc. reflexivity.
Qed.

(** What is left of [s ++ [c]] after the leading blanks is empty or still
    ends with [c]. *)
Lemma trimStart_snoc s c :
  trimStart (s ++ [c]) = []
  \/ exists t, trimStart (s ++ [c]) = t ++ [c] /\ (length t <= length s)%nat.
Proof.
  induction s as [|x s IH]; simpl.
  - destruct (is_white c); [left; reflexivity|].
    right. exists []. split; [reflexivity|simpl; lia].
  - destruct (is_white x).
    + destruct IH as [IH|[t [Ht Hlen]]]; [left; exact IH|].
      right. exists t. split; [exact Ht|lia].
    + right. exists (x :: s). split; [reflexivity|simpl; lia].
Qed.

Lemma trim_snoc_white_length s c :
  is_white c = true -> (length (trim (s ++ [c])) <= length s)%nat.
Proof.
  intros Hc. unfold trim.
  destruct (trimStart_snoc s c) as [->|[t [-> Hlen]]].
  - simpl. lia.
  - rewrite trimEnd_snoc_white by exact Hc.
    etrans; [apply trimEnd_length|exact Hlen].
Qed.

(** [scan] is the regular expression: the text is some leading
    terminators, then the matches, then a last run without terminator, and
    every match is a non-empty run of other characters followed by a
    non-empty run of terminators.  (A match then starts right after a
    terminator or at the start, and is followed by a character that is no
    terminator or by the end: both runs are maximal.) *)
Definition is_sentence (m : list N) : Prop :=
  exists body enders,
    m = body ++ enders /\ body <> [] /\ enders <> []
    /\ Forall (fun c => is_terminator c = false) body
    /\ Forall (fun c => is_terminator c = true) enders.

Lemma scan_decomposes text :
  (forall body,
     body <> [] -> Forall (fun c => is_terminator c = false) body ->
     exists post,
       body ++ text = concat (scan (InBody body) text) ++ post
       /\ Forall (fun c => is_terminator c = false) post
       /\ Forall is_sentence (scan (InBody body) text))
  /\ (forall body enders,
        body <> [] -> Forall (fun c => is_terminator c = false) body ->
        enders <> [] -> Forall (fun c => is_terminator c = true) enders ->
        exists post,
          body ++ enders ++ text = concat (scan (InEnd body enders) text) ++ post
          /\ Forall (fun c => is_terminator c = false) post
          /\ Forall is_sentence (scan (InEnd body enders) text))
  /\ (exists pre post,
        text = pre ++ concat (scan Outside text) ++ post
        /\ Forall (fun c => is_terminator c = true) pre
        /\ Forall (fun c => is_terminator c = false) post
        /\ Forall is_sentence (scan Outside text)).
Proof.
  induction text as [|c rest (IHbody & IHend & IHout)].
  - split; [|split].
    + intros body _ Hbody. exists body. simpl. rewrite app_nil_r. auto.
    + intros body enders Hb Hbody He Henders. exists []. simpl.
      rewrite !app_nil_r. repeat split; [constructor|].
      constructor; [|constructor]. exists body, enders. auto.
    + exists [], []. simpl. auto.
  - split; [|split].
    + intros body Hb Hbody. simpl. destruct (is_terminator c) eqn:Hc.
      * destruct (IHend body [c]) as (post & Heq & Hpost & Hall); auto.
        exists post. auto.
      * destruct (IHbody (body ++ [c])) as (post & Heq & Hpost & Hall).
        { intros Hnil. by apply app_eq_nil in Hnil as [_ ?]. }
        { apply Forall_app. auto. }
        exists post. rewrite <- app_assoc in Heq. auto.
    + intros body enders Hb Hbody He Henders. simpl.
      destruct (is_terminator c) eqn:Hc.
      * destruct (IHend body (enders ++ [c])) as (post & Heq & Hpost & Hall);
          auto.
        { intros Hnil. by apply app_eq_nil in Hnil as [_ ?]. }
        { apply Forall_app. auto. }
        exists post. rewrite <- app_assoc in Heq. auto.
      * destruct (IHbody [c]) as (post & Heq & Hpost & Hall); auto.
        exists post. simpl. rewrite <- !app_assoc. simpl in Heq.
        rewrite <- Heq. repeat split; auto.
        constructor; [|exact Hall]. exists body, enders. auto.
    + simpl. destruct (is_terminator c) eqn:Hc.
      * destruct IHout as (pre & post & Heq & Hpre & Hpost & Hall).
        exists (c :: pre), post. simpl. rewrite <- Heq. auto.
      * destruct (IHbody [c]) as (post & Heq & Hpost & Hall); auto.
        exists [], post. simpl. simpl in Heq. auto.
Qed.

(** What the loop has collected is empty, or ends with the blank it
    appended, the part before the blank being within the limit. *)
Definition collected (maxChars : Z) (out : list N) : Prop :=
  out = []
  \/ exists o, out = o ++ [space] /\ Z.of_nat (length o) <= maxChars.

Lemma collect_collected maxChars sentences : forall out,
  collected maxChars out -> collected maxChars (collect maxChars out sentences).
Proof.
  induction sentences as [|s rest IH]; intros out Hout; simpl; [exact Hout|].
  destruct (Z.ltb_spec maxChars (Z.of_nat (length (out ++ s)))) as [Hgt|Hle];
    [exact Hout|].
  apply IH. right. exists (out ++ trim s). split.
  - rewrite <- app_assoc. reflexivity.
  - rewrite length_app in *. pose proof (trim_length s). lia.
Qed.

Lemma trim_collected_length maxChars out :
  0 <= maxChars -> collected maxChars out ->
  Z.of_nat (length (trim out)) <= maxChars.
Proof.
  intros Hmax [->|[o [-> Hlen]]]; [simpl; lia|].
  pose proof (trim_snoc_white_length o space eq_refl). lia.
Qed.

Lemma slice_to_length s e :
  (length (slice_to s e) <= length s)%nat
  /\ (0 <= e -> Z.of_nat (length (slice_to s e)) <= e).
Proof.
  unfold slice_to. rewrite length_take.
  destruct (Z.ltb_spec e 0); split; lia.
Qed.

(** C10. When the text is longer than [maxChars] and [maxChars] is at
    least 1, the result of [trimToSentence] has at most [maxChars + 1] code
    units and its last code unit is the ellipsis. *)
Theorem trimToSentence_truncated :
  forall (text : list N) (maxChars : Z),
    1 <= maxChars ->
    maxChars < Z.of_nat (length text) ->
    Z.of_nat (length (trimToSentence text maxChars)) <= maxChars + 1
    /\ last (trimToSentence text maxChars) = Some ellipsis.
Proof.
  intros text maxChars Hmax Hlong. unfold trimToSentence.
  destruct (Z.leb_spec (Z.of_nat (length text)) maxChars) as [Hle|_]; [lia|].
  set (sentences := default [text] (match_sentences text)).
  assert (Hout : Z.of_nat (length (trim (collect maxChars [] sentences)))
                 <= maxChars).
  { apply trim_collected_length; [lia|].
    apply collect_collected. left. reflexivity. }
  destruct (trim (collect maxChars [] sentences)) as [|c out] eqn:Htrim.
  - rewrite last_snoc, length_app. simpl. split; [|reflexivity].
    set (slice := slice_to text (maxChars - 1)).
    assert (Hslice : Z.of_nat (length slice) <= maxChars - 1)
      by (apply slice_to_length; lia).
    destruct (40 <? lastIndexOf space slice).
    + pose proof (trim_length (slice_to slice (lastIndexOf space slice))).
      pose proof (proj1 (slice_to_length slice (lastIndexOf space slice))).
      lia.
    + pose proof (trim_length slice). lia.
  - destruct (Z.ltb_spec (Z.of_nat (length (c :: out)))
                (Z.of_nat (length text))) as [_|Hge]; [|lia].
    rewrite last_snoc, length_app. simpl in *. split; [lia|reflexivity].
Qed.

Lemma trimToSentence_truncated_witness :
  Z.of_nat (length (trimToSentence
                      (code_units "Hello world. How are you?! trailing") 20))
    <= 20 + 1
  /\ last (trimToSentence
             (code_units "Hello world. How are you?! trailing") 20)
     = Some ellipsis.
Proof.
  apply (trimToSentence_truncated
           (code_units "Hello world. How are you?! trailing") 20);
    vm_compute; [discriminate|reflexivity].
Defined.

End Trim.

(** ** Worked examples *)

(** Two questions of 2 marks and one of 5: the statuses follow the index of
    the question within its mark, and the ids end with the clock reading. *)
Example mock_two_marks :
  (fun q => (question_id q, status q, length (page_references q)))
    <$> Mock.questions
          (Mock.mockGenerateQuestions example_clock [2; 5] {[ 2 := 2; 5 := 1 ]})
  = [("auto:2-0-1704067200000", NOT_FOUND, 0%nat);
     ("auto:2-1-1704067200001", FOUND, 1%nat);
     ("auto:5-0-1704067200002", NOT_FOUND, 0%nat)].
Proof. vm_compute. reflexivity. Qed.

(** A mark without a count generates nothing. *)
Example mock_missing_count :
  Mock.mockGenerateQuestions example_clock [10] {[ 2 := 2 ]}
  = {| Mock.questions := []; Mock.preview := [] |}.
Proof. vm_compute. reflexivity. Qed.

(** The result of the integration test loads as one FOUND item of 2 marks. *)
Example load_stack_result :
  (fun q => (question_id q, question_text q, marks q, answer q, status q))
    <$> ReviewCenter.load_items Number_of_digits example_clock
          (Some [stack_result])
  = [("abc123-2", "What is a stack?", 2, "A stack is LIFO structure.", FOUND)].
Proof. vm_compute. reflexivity. Qed.

(** Without loaded items the Approve button does nothing, and the sample
    data stay as they are. *)
Example approve_without_items :
  ReviewCenter.onApprove None stack_item true = None
  /\ ReviewCenter.run [ReviewCenter.Approved "auto-2"] = None.
Proof. split; reflexivity. Qed.

(** The first sentence fits in 20 code units, the second does not. *)
Example trim_keeps_first_sentence :
  Utils.trimToSentence (code_units "Hello world. How are you?! trailing") 20
  = code_units "Hello world." ++ [Utils.ellipsis].
Proof. vm_compute. reflexivity. Qed.

(** No sentence fits: the text is cut after 19 code units. *)
Example trim_falls_back_to_slice :
  Utils.trimToSentence (code_units "Hello world how are you trailing") 20
  = code_units "Hello world how are" ++ [Utils.ellipsis].
Proof. vm_compute. reflexivity. Qed.

(** A text within the limit is returned as it is. *)
Example trim_short_text :
  Utils.trimToSentence (code_units "Short.") 20 = code_units "Short.".
Proof. vm_compute. reflexivity. Qed.

(** Leading terminators and the last run without terminator are no part of
    a match. *)
Example match_sentences_example :
  Utils.match_sentences (code_units "..One. Two?! three")
  = Some [code_units "One."; code_units " Two?!"].
Proof. vm_compute. reflexivity. Qed.

(** With an APPROVED item the summary gets a fourth entry and rendering
    fails. *)
Example preview_with_approved :
  AutoQAPreview.stats [found_preview; approved_preview]
  = [(FOUND, AutoQAPreview.Count 1); (NOT_FOUND, AutoQAPreview.Count 0);
     (NEEDS_REVIEW, AutoQAPreview.Count 0); (APPROVED, AutoQAPreview.NaN)]
  /\ AutoQAPreview.render [found_preview; approved_preview] = None
  /\ is_Some (AutoQAPreview.render [found_preview]).
Proof. repeat split. vm_compute. eauto. Qed.

(** A requested mark of 7 is passed on as the primary mark when the item
    has no answer under 10, 5 or 2. *)
Example primary_mark_examples :
  UseAutoQAGeneration.primaryMark [7] odd_mark_result = 2
  /\ UseAutoQAGeneration.primaryMark [7]
       {| it_id := None; it_question := None; it_question_text := None;
          it_answers := None; it_answer := None; it_page_references := None;
          it_status := None |} = 7
  /\ UseAutoQAGeneration.primaryMark []
       {| it_id := None; it_question := None; it_question_text := None;
          it_answers := None; it_answer := None; it_page_references := None;
          it_status := None |} = 2.
Proof. repeat split. Qed.

(** * Further properties of the code *)

(** ** The mock generator *)

(** X1. The two arrays [mockGenerateQuestions] returns go together: the
    preview is the list of the questions, each reduced to its preview item
    (same id, text, marks and status, the number of its page references and
    its first retrieval score). *)
Theorem mock_preview_mirrors_questions :
  forall (c : Clock) (requested : list Z) (questionsPerMark : gmap Z Z),
    let out := Mock.mockGenerateQuestions c requested questionsPerMark in
    Mock.preview out = Mock.preview_item <$> Mock.questions out.
Proof.
  intros c requested questionsPerMark. simpl.
  unfold Mock.mockGenerateQuestions.
  apply (fold_left_invariant _
           (fun acc => Mock.preview acc = Mock.preview_item <$> Mock.questions acc));
    [|reflexivity].
  intros acc mark Hacc. unfold Mock.for_mark.
  destruct (questionsPerMark !! mark) as [n|]; [|exact Hacc].
  apply (fold_left_invariant _
           (fun acc => Mock.preview acc = Mock.preview_item <$> Mock.questions acc));
    [|exact Hacc].
  intros acc' i Hacc'. simpl. rewrite fmap_app, Hacc'. reflexivity.
Qed.

(** The number of questions asked for a mark: its count when it has one and
    the count is positive, otherwise none. *)
Definition asked (questionsPerMark : gmap Z Z) (mark : Z) : nat :=
  Z.to_nat (default 0 (questionsPerMark !! mark)).

Lemma mock_push_length c mark l : forall acc,
  length (Mock.questions (fold_left (Mock.push c mark) l acc))
  = (length (Mock.questions acc) + length l)%nat.
Proof.
  induction l as [|i l IH]; intros acc; simpl; [lia|].
  rewrite IH. simpl. rewrite length_app. simpl. lia.
Qed.

Lemma mock_for_mark_length c questionsPerMark acc mark :
  length (Mock.questions (Mock.for_mark c questionsPerMark acc mark))
  = (length (Mock.questions acc) + asked questionsPerMark mark)%nat.
Proof.
  unfold Mock.for_mark, asked.
  destruct (questionsPerMark !! mark) as [n|]; simpl; [|lia].
  rewrite mock_push_length, length_seq. reflexivity.
Qed.

Lemma mock_marks_asked c questionsPerMark requested : forall acc,
  Forall (fun q => (0 < asked questionsPerMark (marks q))%nat)
    (Mock.questions acc) ->
  Forall (fun q => (0 < asked questionsPerMark (marks q))%nat)
    (Mock.questions
       (fold_left (Mock.for_mark c questionsPerMark) requested acc)).
Proof.
  induction requested as [|mark ms IH]; intros acc Hacc; simpl; [exact Hacc|].
  apply IH. unfold Mock.for_mark.
  destruct (questionsPerMark !! mark) as [n|] eqn:Hn; [|exact Hacc].
  destruct (Z.to_nat n) as [|k] eqn:Hk; [exact Hacc|].
  apply (fold_left_invariant _
           (fun acc => Forall (fun q => (0 < asked questionsPerMark (marks q))%nat)
                         (Mock.questions acc))); [|exact Hacc].
  intros acc' i Hacc'. simpl. apply Forall_app. split; [exact Hacc'|].
  constructor; [|constructor]. cbn [marks Mock.question].
  unfold asked. rewrite Hn. cbn [default from_option id]. lia.
Qed.

Lemma mock_marks_requested c questionsPerMark (all : list Z) requested :
  forall acc,
    requested ⊆ all ->
    Forall (fun q => marks q ∈ all) (Mock.questions acc) ->
    Forall (fun q => marks q ∈ all)
      (Mock.questions
         (fold_left (Mock.for_mark c questionsPerMark) requested acc)).
Proof.
  induction requested as [|mark ms IH]; intros acc Hsub Hacc; simpl;
    [exact Hacc|].
  apply IH; [set_solver|]. unfold Mock.for_mark.
  destruct (questionsPerMark !! mark) as [n|]; [|exact Hacc].
  apply (fold_left_invariant _
           (fun acc => Forall (fun q => marks q ∈ all) (Mock.questions acc)));
    [|exact Hacc].
  intros acc' i Hacc'. simpl. apply Forall_app. split; [exact Hacc'|].
  constructor; [|constructor]. simpl. set_solver.
Qed.

(** X2. [mockGenerateQuestions] generates, for each requested mark in
    turn, as many questions as its count says (none when the mark has no
    count or the count is not positive); a mark requested twice is
    generated twice.  Every question carries a requested mark whose count
    is positive. *)
Theorem mock_question_count :
  forall (c : Clock) (requested : list Z) (questionsPerMark : gmap Z Z),
    let out := Mock.mockGenerateQuestions c requested questionsPerMark in
    length (Mock.questions out) = sum_list (asked questionsPerMark <$> requested)
    /\ Forall (fun q => marks q ∈ requested
                        /\ (0 < asked questionsPerMark (marks q))%nat)
         (Mock.questions out).
Proof.
  intros c requested questionsPerMark. simpl. split.
  - unfold Mock.mockGenerateQuestions.
    assert (H : forall ms acc,
              length (Mock.questions
                        (fold_left (Mock.for_mark c questionsPerMark) ms acc))
              = (length (Mock.questions acc)
                 + sum_list (asked questionsPerMark <$> ms))%nat).
    { induction ms as [|m ms IH]; intros acc; [simpl; lia|].
      cbn [fold_left]. rewrite IH, mock_for_mark_length, fmap_cons.
      cbn [sum_list sum_list_with id]. lia. }
    rewrite H. reflexivity.
  - apply Forall_and. split.
    + apply mock_marks_requested; [done|constructor].
    + apply mock_marks_asked. constructor.
Qed.

(** X3. In the output of the mock generator a question is NOT_FOUND
    exactly when it has no page reference, and exactly when its answer is
    empty; its retrieval scores are those of its page references, one for
    each, and it has as many quotes as page references. *)
Theorem mock_grounding_shape :
  forall (c : Clock) (requested : list Z) (questionsPerMark : gmap Z Z),
    Forall (fun q =>
              (status q = NOT_FOUND <-> page_references q = [])
              /\ (status q = NOT_FOUND <-> answer q = "")
              /\ source <$> retrieval_scores q = page_references q
              /\ length (verbatim_quotes q) = length (page_references q))
      (Mock.questions (Mock.mockGenerateQuestions c requested questionsPerMark)).
Proof.
  intros c requested questionsPerMark. apply mock_questions_forall.
  intros now mark i t. unfold Mock.question. cbn -[pretty].
  destruct (decide (Mock.item_status i = NOT_FOUND)) as [He|Hne].
  - repeat split; done.
  - repeat split; try done; intros H; try done.
Qed.

(** ** The Review Center *)

Lemma load_from_prefix Number c results : forall idx acc,
  exists tail, ReviewCenter.load_from Number c idx results acc = acc ++ tail.
Proof.
  induction results as [|it rs IH]; intros idx acc; simpl.
  - exists []. rewrite app_nil_r. reflexivity.
  - assert (Hfold : forall es acc0, exists tail,
              fold_left (ReviewCenter.push_variant Number c it idx) es acc0
              = acc0 ++ tail).
    { induction es as [|e es IHes]; intros acc0; simpl.
      - exists []. rewrite app_nil_r. reflexivity.
      - destruct (IHes (ReviewCenter.push_variant Number c it idx acc0 e))
          as [tail ->].
        unfold ReviewCenter.push_variant. rewrite <- app_assoc. eauto. }
    destruct (Hfold (ReviewCenter.answers_of it) acc) as [tail1 ->].
    destruct (IH (S idx) (acc ++ tail1)) as [tail2 ->].
    rewrite <- app_assoc. eauto.
Qed.

Lemma load_from_single_answers Number c results : forall idx acc k it,
  Forall (fun it => length (ReviewCenter.answers_of it) = 1%nat) results ->
  results !! k = Some it ->
  exists entry,
    ReviewCenter.answers_of it = [entry]
    /\ ReviewCenter.load_from Number c idx results acc !! (length acc + k)%nat
       = Some (ReviewCenter.variant Number it (idx + k)
                 (toISOString c (length acc + k)) entry).
Proof.
  induction results as [|r rs IH]; intros idx acc k it Hone Hk; [done|].
  apply Forall_cons in Hone as [Hr Hrs]. simpl.
  destruct (ReviewCenter.answers_of r) as [|e [|e' es]] eqn:Hans; try done.
  simpl. unfold ReviewCenter.push_variant at 1.
  destruct k as [|k]; simpl in Hk.
  - injection Hk as <-. exists e. split; [exact Hans|].
    destruct (load_from_prefix Number c rs (S idx)
                (acc ++ [ReviewCenter.variant Number r idx
                           (toISOString c (length acc)) e]))
      as [tail ->].
    rewrite !Nat.add_0_r, <- app_assoc.
    rewrite lookup_app_r by lia. rewrite Nat.sub_diag. reflexivity.
  - destruct (IH (S idx)
                (acc ++ [ReviewCenter.variant Number r idx
                           (toISOString c (length acc)) e]) k it Hrs Hk)
      as (entry & Hentry & Hlookup).
    exists entry. split; [exact Hentry|].
    rewrite length_app in Hlookup. simpl in Hlookup.
    replace (length acc + S k)%nat with (length acc + 1 + k)%nat by lia.
    replace (idx + S k)%nat with (S idx + k)%nat by lia.
    exact Hlookup.
Qed.

(** X4. When every result of a job has exactly one answer, the loaded
    items line up with the results: there are as many, and the item at
    position [k] is the variant built from the result at position [k].
    (Save and Approve send the position of the active item among the items
    as the index of the result to update.) *)
Theorem loaded_items_line_up_with_results :
  forall (Number : string -> option Z) (c : Clock) (results : list RawItem),
    Forall (fun it => length (ReviewCenter.answers_of it) = 1%nat) results ->
    length (ReviewCenter.load_items Number c (Some results)) = length results
    /\ forall k it,
         results !! k = Some it ->
         exists entry,
           ReviewCenter.answers_of it = [entry]
           /\ ReviewCenter.load_items Number c (Some results) !! k
              = Some (ReviewCenter.variant Number it k (toISOString c k) entry).
Proof.
  intros Number c results Hone. split.
  - unfold ReviewCenter.load_items. rewrite load_from_length. simpl.
    unfold answers_count. induction Hone as [|it rs Hit _ IH]; [reflexivity|].
    simpl. rewrite Hit. simpl in IH. rewrite IH. reflexivity.
  - intros k it Hk.
    destruct (load_from_single_answers Number c results 0 [] k it Hone Hk)
      as (entry & Hentry & Hlookup).
    exists entry. split; [exact Hentry|exact Hlookup].
Qed.

Lemma loaded_items_line_up_with_results_witness :
  length (ReviewCenter.load_items Number_of_digits example_clock
            (Some [stack_result])) = length [stack_result]
  /\ forall k it,
       [stack_result] !! k = Some it ->
       exists entry,
         ReviewCenter.answers_of it = [entry]
         /\ ReviewCenter.load_items Number_of_digits example_clock
              (Some [stack_result]) !! k
            = Some (ReviewCenter.variant Number_of_digits it k
                      (toISOString example_clock k) entry).
Proof.
  apply (loaded_items_line_up_with_results Number_of_digits example_clock
           [stack_result]).
  repeat constructor.
Defined.

(** The updates that edit the loaded items, as opposed to replacing them. *)
Definition edits (u : ReviewCenter.Update) : option string :=
  match u with
  | ReviewCenter.Loaded _ _ _ | ReviewCenter.Cleared => None
  | ReviewCenter.RegeneratedIcon id _ | ReviewCenter.Regenerated id _
  | ReviewCenter.QuestionEdited id _ | ReviewCenter.AnswerEdited id _
  | ReviewCenter.Approved id => Some id
  end.

(** X5. An update that edits the loaded items (regenerate, edit of the
    question or of the answer, approve) keeps the number and the order of
    the items, and for each item its id, marks, answer format and page
    references; it leaves an item with another id as it is; it never takes
    APPROVED away, and only Approve changes a status at all.  Without
    loaded items it does nothing. *)
Theorem edits_keep_items_and_approval :
  forall (u : ReviewCenter.Update) (id : string)
         (items : list GeneratedQuestion),
    edits u = Some id ->
    ReviewCenter.apply_update u None = None
    /\ exists items',
         ReviewCenter.apply_update u (Some items) = Some items'
         /\ length items' = length items
         /\ forall i a,
              items !! i = Some a ->
              exists b,
                items' !! i = Some b
                /\ question_id b = question_id a
                /\ marks b = marks a
                /\ answer_format b = answer_format a
                /\ page_references b = page_references a
                /\ (question_id a <> id -> b = a)
                /\ (status a = APPROVED -> status b = APPROVED)
                /\ (u <> ReviewCenter.Approved id -> status b = status a).
Proof.
  intros u id items Hu.
  destruct u as [N c' r| |id' v|id' v|id' v|id' v|id']; simpl in Hu;
    try discriminate; injection Hu as ->;
    (split; [reflexivity|]);
    (eexists; split; [reflexivity|]);
    (split; [apply length_map|]);
    intros i a Ha; rewrite list_lookup_fmap, Ha; simpl;
    (eexists; split; [reflexivity|]);
    destruct (decide (question_id a = id)) as [He|Hne]; simpl;
    repeat split; try done; try (intros; congruence).
  - intros Ha'. destruct (decide (status a = APPROVED)); exact Ha'.
  - intros _. destruct (decide (status a = APPROVED)); reflexivity.
Qed.

Lemma edits_keep_items_and_approval_witness :
  ReviewCenter.apply_update (ReviewCenter.AnswerEdited "abc123-2" "LIFO.") None
  = None
  /\ exists items',
       ReviewCenter.apply_update (ReviewCenter.AnswerEdited "abc123-2" "LIFO.")
         (Some [stack_item_approved]) = Some items'
       /\ length items' = length [stack_item_approved]
       /\ forall i a,
            [stack_item_approved] !! i = Some a ->
            exists b,
              items' !! i = Some b
              /\ question_id b = question_id a
              /\ marks b = marks a
              /\ answer_format b = answer_format a
              /\ page_references b = page_references a
              /\ (question_id a <> "abc123-2" -> b = a)
              /\ (status a = APPROVED -> status b = APPROVED)
              /\ (ReviewCenter.AnswerEdited "abc123-2" "LIFO."
                  <> ReviewCenter.Approved "abc123-2" -> status b = status a).
Proof.
  apply (edits_keep_items_and_approval
           (ReviewCenter.AnswerEdited "abc123-2" "LIFO.") "abc123-2"
           [stack_item_approved]).
  reflexivity.
Defined.

(** X6. The Approve button issues a state update exactly when job items
    are loaded, the active item is among them by its id, and the call of
    [updateJobItem] succeeded; the update then marks the active item's id
    as APPROVED.  In every other case nothing changes. *)
Theorem onApprove_issues_update_iff :
  forall (dynamicItems : option (list GeneratedQuestion))
         (activeAutoQA : GeneratedQuestion) (api_ok : bool)
         (u : ReviewCenter.Update),
    ReviewCenter.onApprove dynamicItems activeAutoQA api_ok = Some u
    <-> (api_ok = true
         /\ u = ReviewCenter.Approved (question_id activeAutoQA)
         /\ exists items,
              dynamicItems = Some items
              /\ Exists (fun it => question_id it = question_id activeAutoQA)
                   items).
Proof.
  intros dynamicItems activeAutoQA api_ok u. unfold ReviewCenter.onApprove.
  destruct dynamicItems as [items|].
  - unfold ReviewCenter.findIndex.
    destruct (list_find _ items) as [[i it]|] eqn:Hfind; simpl.
    + apply list_find_Some in Hfind as (Hi & Hit & _).
      assert (Hex : Exists (fun it => question_id it = question_id activeAutoQA)
                      items).
      { apply Exists_exists. exists it. split; [|exact Hit].
        apply list_elem_of_lookup. eauto. }
      destruct api_ok; split.
      * intros [= <-]. eauto.
      * intros (_ & -> & _). reflexivity.
      * discriminate.
      * intros (? & _). discriminate.
    + apply list_find_None in Hfind. split; [discriminate|].
      intros (_ & _ & items' & [= <-] & Hex).
      apply Exists_exists in Hex as (it & Hin & Hit).
      rewrite Forall_forall in Hfind. exfalso. exact (Hfind it Hin Hit).
  - split; [discriminate|]. intros (_ & _ & items & ? & _). discriminate.
Qed.

(** ** The grouped view *)

Definition group_ok (g : string * list GeneratedQuestion) : Prop :=
  g.2 <> [] /\ Forall (fun it => question_text it = g.1) g.2.

(** What holds of the map after the items [seen]: its arrays hold the items
    seen, each under its question text, no key is used twice and no key
    names an inherited property. *)
Definition groups_of (m : list (string * list GeneratedQuestion))
    (seen : list GeneratedQuestion) : Prop :=
  concat m.*2 ≡ₚ seen
  /\ Forall group_ok m
  /\ NoDup m.*1
  /\ Forall (fun k => k ∉ Grouped.Object_prototype_names) m.*1.

Lemma append_to_keys key it m : (Grouped.append_to key it m).*1 = m.*1.
Proof.
  induction m as [|[k vs] m IH]; csimpl; [reflexivity|].
  case_decide; csimpl; [reflexivity|]. rewrite IH. reflexivity.
Qed.

Lemma append_to_items key it m :
  key ∈ m.*1 -> concat (Grouped.append_to key it m).*2 ≡ₚ it :: concat m.*2.
Proof.
  induction m as [|[k vs] m IH]; csimpl; intros Hin.
  - by apply elem_of_nil in Hin.
  - case_decide as Hk; csimpl.
    + rewrite <- app_assoc. simpl.
      rewrite <- Permutation_middle. reflexivity.
    + apply elem_of_cons in Hin as [Hin|Hin]; [congruence|].
      rewrite (IH Hin). rewrite Permutation_middle. reflexivity.
Qed.

Lemma append_to_ok it m :
  Forall group_ok m -> Forall group_ok (Grouped.append_to (question_text it) it m).
Proof.
  induction 1 as [|[k vs] m [Hne Hall] Hrest IH]; simpl; [constructor|].
  case_decide as Hk; simpl.
  - constructor; [|assumption]. split; simpl in *.
    + intros Hnil. by apply app_eq_nil in Hnil as [_ ?].
    + apply Forall_app. split; [exact Hall|]. constructor; [congruence|constructor].
  - constructor; [split; assumption|exact IH].
Qed.

Lemma push_groups_of m it m' seen :
  groups_of m seen -> Grouped.push m it = Some m' -> groups_of m' (seen ++ [it]).
Proof.
  intros (Hitems & Hok & Hnodup & Hkeys). unfold Grouped.push.
  destruct (decide (question_text it ∈ m.*1)) as [Hin|Hnin].
  - intros [= <-]. repeat split.
    + rewrite append_to_items by exact Hin. rewrite Hitems.
      rewrite <- Permutation_cons_append. reflexivity.
    + apply append_to_ok, Hok.
    + rewrite append_to_keys. exact Hnodup.
    + rewrite append_to_keys. exact Hkeys.
  - destruct (decide (question_text it ∈ Grouped.Object_prototype_names))
      as [Hproto|Hproto]; [discriminate|].
    intros [= <-]. repeat split.
    + rewrite fmap_app, concat_app. simpl. rewrite ?app_nil_r, Hitems.
      reflexivity.
    + apply Forall_app. split; [exact Hok|].
      constructor; [|constructor]. split; simpl; [done|].
      constructor; [reflexivity|constructor].
    + rewrite fmap_app. simpl. apply NoDup_app. repeat split; [exact Hnodup| |].
      * intros k Hk Hk'. apply list_elem_of_singleton in Hk'. congruence.
      * apply NoDup_singleton.
    + rewrite fmap_app. apply Forall_app. split; [exact Hkeys|].
      constructor; [exact Hproto|constructor].
Qed.

Lemma collect_snoc source it :
  Grouped.collect (source ++ [it])
  = Grouped.collect source ≫= (fun m => Grouped.push m it).
Proof. unfold Grouped.collect. rewrite fold_left_app. reflexivity. Qed.

Lemma collect_groups_of source : forall m,
  Grouped.collect source = Some m -> groups_of m source.
Proof.
  induction source as [|it source IH] using rev_ind; intros m.
  - intros [= <-]. repeat split; constructor.
  - rewrite collect_snoc.
    destruct (Grouped.collect source) as [m0|]; simpl; [|discriminate].
    apply push_groups_of, IH. reflexivity.
Qed.

Lemma collect_fails_iff source :
  Grouped.collect source = None
  <-> Exists (fun it => question_text it ∈ Grouped.Object_prototype_names)
        source.
Proof.
  induction source as [|it source IH] using rev_ind.
  - split; [discriminate|]. intros H. by apply Exists_nil in H.
  - rewrite collect_snoc, Exists_app, Exists_cons, Exists_nil.
    destruct (Grouped.collect source) as [m|] eqn:Hm; simpl.
    + pose proof (collect_groups_of source m Hm) as (_ & _ & _ & Hkeys).
      unfold Grouped.push.
      destruct (decide (question_text it ∈ m.*1)) as [Hin|Hnin].
      * split; [discriminate|]. intros [H|[H|[]]].
        -- apply IH in H. discriminate.
        -- rewrite Forall_forall in Hkeys. exfalso. exact (Hkeys _ Hin H).
      * destruct (decide (question_text it ∈ Grouped.Object_prototype_names));
          split; auto; try discriminate.
        intros [H|[H|[]]]; [apply IH in H; discriminate|done].
    + split; [|reflexivity]. intros _. left. apply IH. reflexivity.
Qed.

Lemma Object_entries_Permutation {V} (m : list (string * V)) :
  Grouped.Object_entries m ≡ₚ m.
Proof.
  unfold Grouped.Object_entries. rewrite merge_sort_Permutation.
  induction m as [|kv m IH]; [reflexivity|].
  destruct (Grouped.array_index kv.1) as [n|] eqn:Hn.
  - rewrite filter_cons_False by (rewrite Hn; done).
    cbn [omap list_omap]. rewrite Hn. csimpl. rewrite IH. reflexivity.
  - rewrite filter_cons_True by exact Hn.
    cbn [omap list_omap]. rewrite Hn. csimpl.
    rewrite <- Permutation_middle, IH. reflexivity.
Qed.

Lemma concat_Permutation_proper {A} (l l' : list (list A)) :
  l ≡ₚ l' -> concat l ≡ₚ concat l'.
Proof.
  induction 1 as [|x l l' _ IH|x y l|l l' l'' _ IH1 _ IH2]; simpl.
  - reflexivity.
  - rewrite IH. reflexivity.
  - rewrite !(assoc (++)), (comm (++) y x). reflexivity.
  - etrans; eassumption.
Qed.

(** X7. When the grouping of the shown items succeeds, the groups are a
    partition of the items by question text: the variants of all groups
    together are the items (each once), every group has at least one
    variant, all with the question text of the group, and no two groups
    have the same question text. *)
Theorem grouped_partitions_items :
  forall (source : list GeneratedQuestion)
         (groups : list (string * list GeneratedQuestion)),
    Grouped.grouped source = Some groups ->
    concat groups.*2 ≡ₚ source
    /\ Forall (fun g =>
                 g.2 <> [] /\ Forall (fun it => question_text it = g.1) g.2)
         groups
    /\ NoDup groups.*1.
Proof.
  intros source groups. unfold Grouped.grouped.
  destruct (Grouped.collect source) as [m|] eqn:Hm; simpl; [|discriminate].
  intros [= <-].
  destruct (collect_groups_of source m Hm) as (Hitems & Hok & Hnodup & _).
  pose proof (Object_entries_Permutation m) as Hperm.
  repeat split.
  - rewrite <- Hitems. apply concat_Permutation_proper.
    rewrite Hperm. reflexivity.
  - rewrite Hperm. exact Hok.
  - rewrite Hperm. exact Hnodup.
Qed.

(** X8. The grouping throws (a TypeError, in the render of the Review
    Center) exactly when some shown item has a question text that names a
    property every object inherits, such as [constructor] or [toString]:
    the map then yields that property instead of an array. *)
Theorem grouped_throws_iff_inherited_name :
  forall source : list GeneratedQuestion,
    Grouped.grouped source = None
    <-> Exists (fun it => question_text it ∈ Grouped.Object_prototype_names)
          source.
Proof.
  intros source. rewrite <- collect_fails_iff. unfold Grouped.grouped.
  destruct (Grouped.collect source); simpl; split; congruence.
Qed.

Lemma grouped_partitions_items_witness :
  concat [("What is a stack?", [stack_item; stack_item_approved])].*2
    ≡ₚ [stack_item; stack_item_approved]
  /\ Forall (fun g =>
               g.2 <> [] /\ Forall (fun it => question_text it = g.1) g.2)
       [("What is a stack?", [stack_item; stack_item_approved])]
  /\ NoDup [("What is a stack?", [stack_item; stack_item_approved])].*1.
Proof.
  apply (grouped_partitions_items [stack_item; stack_item_approved]
           [("What is a stack?", [stack_item; stack_item_approved])]).
  vm_compute. reflexivity.
Defined.

(** A question text that is an array index comes first among the groups,
    and one that names an inherited property makes the grouping throw. *)
Example grouped_examples :
  (fun groups : list (string * list GeneratedQuestion) =>
     map (fun g => (g.1, length g.2)) groups)
    <$> Grouped.grouped
          [ReviewCenter.with_question_text stack_item "Queues";
           ReviewCenter.with_question_text stack_item "10";
           ReviewCenter.with_question_text stack_item "2";
           ReviewCenter.with_question_text stack_item_approved "Queues"]
  = Some [("2", 1%nat); ("10", 1%nat); ("Queues", 2%nat)]
  /\ Grouped.grouped [ReviewCenter.with_question_text stack_item "toString"]
     = None.
Proof. vm_compute. split; reflexivity. Qed.

(** ** The preview of generated questions *)

Lemma count_status_total items :
  (count_status FOUND items + count_status NOT_FOUND items
   + count_status NEEDS_REVIEW items + count_status APPROVED items)%nat
  = length items.
Proof.
  induction items as [|item items IH]; [reflexivity|].
  rewrite !count_status_cons. simpl length.
  destruct (pv_status item); repeat case_decide; try done; lia.
Qed.

Lemma count_status_zero s items :
  count_status s items = 0%nat <-> Forall (fun item => pv_status item <> s) items.
Proof.
  induction items as [|item items IH]; [split; [constructor|reflexivity]|].
  rewrite count_status_cons, Forall_cons. case_decide as Hs.
  - split; [lia|]. intros [Hne _]. done.
  - rewrite <- IH. split; [intros H; split; [done|lia]|intros [_ H]; lia].
Qed.

(** X9. The three counts that [AutoQAPreview] shows leave out the
    APPROVED items: together with the number of APPROVED items they add up
    to the number of items, so they add up to the number of items exactly
    when no item is APPROVED. *)
Theorem preview_counts_add_up :
  forall items : list QAPreviewItem,
    exists f n r,
      take 3 (AutoQAPreview.stats items)
        = [(FOUND, AutoQAPreview.Count f); (NOT_FOUND, AutoQAPreview.Count n);
           (NEEDS_REVIEW, AutoQAPreview.Count r)]
      /\ (f + n + r + count_status APPROVED items)%nat = length items
      /\ ((f + n + r)%nat = length items
          <-> Forall (fun item => pv_status item <> APPROVED) items).
Proof.
  intros items.
  exists (count_status FOUND items), (count_status NOT_FOUND items),
    (count_status NEEDS_REVIEW items).
  split; [rewrite stats_summary; reflexivity|].
  pose proof (count_status_total items) as Htotal.
  split; [exact Htotal|].
  rewrite <- count_status_zero. lia.
Qed.

(** X10. For generated items whose status is missing or one of FOUND,
    NOT_FOUND, NEEDS_REVIEW and APPROVED, which are the statuses an item of
    this model can have: [useAutoQAGeneration] hands [AutoQAPreview] one
    preview item per generated item, in the same order, with the status
    that was sent (FOUND when none was sent), the primary mark and the
    number of page references of the item.  If some item was sent with
    status APPROVED the preview cannot be rendered; otherwise it renders
    three summary cells and one row per item, and each row shows the label
    of the status that was sent for its item, its primary mark and its
    number of page references. *)
Theorem generated_preview_renders_unless_approved :
  forall (requested : list Z) (items : option (list RawItem)),
    let sent := default [] items in
    let preview := runGeneration_preview requested items in
    length preview = length sent
    /\ Forall2
         (fun it p =>
            pv_status p = default FOUND (it_status it)
            /\ pv_marks p = UseAutoQAGeneration.primaryMark requested it
            /\ page_count p = length (default [] (it_page_references it))
            /\ confidence_score p = None)
         sent preview
    /\ (Exists (fun it => it_status it = Some APPROVED) sent ->
        AutoQAPreview.render preview = None)
    /\ (Forall (fun it => it_status it <> Some APPROVED) sent ->
        exists cells rows,
          AutoQAPreview.render preview = Some (cells, rows)
          /\ length cells = 3%nat
          /\ length rows = length sent
          /\ Forall2
               (fun it row =>
                  exists config,
                    AutoQAPreview.statusConfig (default FOUND (it_status it))
                    = Some config
                    /\ AutoQAPreview.row_label row = AutoQAPreview.label config
                    /\ AutoQAPreview.row_icon row = AutoQAPreview.icon config
                    /\ AutoQAPreview.row_marks row
                       = UseAutoQAGeneration.primaryMark requested it
                    /\ AutoQAPreview.row_page_count row
                       = length (default [] (it_page_references it)))
               sent rows).
Proof.
  intros requested items. simpl. unfold runGeneration_preview.
  generalize (default [] items) as l. intros l.
  split; [apply length_fmap|]. split; [|split].
  - apply Forall2_fmap_r, Forall_Forall2_diag, Forall_forall.
    intros it _. done.
  - intros Hex. unfold AutoQAPreview.render.
    rewrite stats_summary, has_status_true; [reflexivity|].
    apply Exists_fmap. eapply Exists_impl; [exact Hex|].
    intros it Hit. simpl. rewrite Hit. reflexivity.
  - intros Hall.
    assert (Hno : Forall (fun item => pv_status item <> APPROVED)
                    (UseAutoQAGeneration.preview_item requested <$> l)).
    { apply Forall_fmap. eapply Forall_impl; [exact Hall|].
      intros it Hit. unfold compose, UseAutoQAGeneration.preview_item.
      cbn [pv_status]. simpl in Hit.
      destruct (it_status it) as [st|]; simpl; [|discriminate].
      intros ->. by apply Hit. }
    unfold AutoQAPreview.render.
    rewrite stats_summary, (has_status_false _ _ Hno). simpl.
    assert (Hrows : is_Some (mapM AutoQAPreview.item_row
                               (UseAutoQAGeneration.preview_item requested <$> l))).
    { apply mapM_is_Some. eapply Forall_impl; [exact Hno|].
      intros item Hitem. destruct (statusConfig_defined _ Hitem) as [cfg Hc].
      unfold AutoQAPreview.item_row. simpl. rewrite Hc. simpl. eauto. }
    destruct Hrows as [rows Hrows]. rewrite Hrows. simpl.
    eexists _, rows. split; [reflexivity|]. split; [reflexivity|].
    split.
    { apply length_mapM in Hrows. rewrite <- Hrows. apply length_fmap. }
    apply mapM_Some in Hrows. apply Forall2_fmap_l in Hrows.
    eapply Forall2_impl; [exact Hrows|].
    intros it row Hrow. unfold compose, AutoQAPreview.item_row in Hrow.
    cbn [pv_status UseAutoQAGeneration.preview_item] in Hrow.
    destruct (AutoQAPreview.statusConfig (default FOUND (it_status it)))
      as [config|] eqn:Hconfig; [|discriminate].
    simpl in Hrow. injection Hrow as <-. exists config. done.
Qed.

(** X11. The primary mark of a generated item is the highest of 10, 5
    and 2 under which the item has a non-empty answer; only when it has
    none of them is the first requested mark used (2 when nothing was
    requested or the first mark is 0). *)
Theorem primary_mark_prefers_highest :
  forall (requested : list Z) (it : RawItem),
    let has k := truthy (UseAutoQAGeneration.answer_at it k) in
    let m := UseAutoQAGeneration.primaryMark requested it in
    (has "10" = true -> m = 10)
    /\ (has "10" = false -> has "5" = true -> m = 5)
    /\ (has "10" = false -> has "5" = false -> has "2" = true -> m = 2)
    /\ (has "10" = false -> has "5" = false -> has "2" = false ->
        m = match requested with
            | first :: _ => if first =? 0 then 2 else first
            | [] => 2
            end).
Proof.
  intros requested it. simpl.
  unfold UseAutoQAGeneration.primaryMark, UseAutoQAGeneration.markKeys.
  rewrite !filter_cons, filter_nil. simpl.
  destruct (truthy (UseAutoQAGeneration.answer_at it "10")),
    (truthy (UseAutoQAGeneration.answer_at it "5")),
    (truthy (UseAutoQAGeneration.answer_at it "2"));
    repeat case_decide; try done; repeat split; intros; done.
Qed.

(** ** More on [trimToSentence] *)

Section TrimMore.

Import Utils.

Lemma collected_trim_length maxChars out :
  collected maxChars out ->
  trim out = [] \/ Z.of_nat (length (trim out)) <= maxChars.
Proof.
  intros [->|[o [-> Hlen]]]; [left; reflexivity|].
  right. pose proof (trim_snoc_white_length o space eq_refl). lia.
Qed.

(** A text longer than the limit comes back as a trimmed text followed by
    the ellipsis. *)
Lemma truncated_form text maxChars :
  maxChars < Z.of_nat (length text) ->
  exists x,
    trimToSentence text maxChars = trim x ++ [ellipsis]
    /\ (1 <= maxChars -> Z.of_nat (length (trim x)) <= maxChars)
    /\ (0 <= maxChars -> (length (trim x) < length text)%nat).
Proof.
  intros Hlong. unfold trimToSentence.
  destruct (Z.leb_spec (Z.of_nat (length text)) maxChars) as [Hle|_]; [lia|].
  set (sentences := default [text] (match_sentences text)).
  pose proof (collected_trim_length maxChars (collect maxChars [] sentences))
    as Hcollected.
  destruct (trim (collect maxChars [] sentences)) as [|c out] eqn:Htrim.
  - set (slice := slice_to text (maxChars - 1)).
    exists (if 40 <? lastIndexOf space slice
            then slice_to slice (lastIndexOf space slice) else slice).
    split; [reflexivity|].
    assert (Hcut : (length
                      (trim (if (40 <? lastIndexOf space slice)%Z
                             then slice_to slice (lastIndexOf space slice)
                             else slice)) <= length slice)%nat).
    { destruct (40 <? lastIndexOf space slice).
      - etrans; [apply trim_length|]. apply slice_to_length.
      - apply trim_length. }
    split.
    + intros Hmax.
      assert (Z.of_nat (length slice) <= maxChars - 1)
        by (apply slice_to_length; lia).
      lia.
    + intros Hmax.
      assert ((length slice < length text)%nat); [|lia].
      subst slice. unfold slice_to. rewrite length_take.
      destruct (Z.ltb_spec (maxChars - 1) 0); lia.
  - destruct Hcollected as [Hnil|Hlen]; [|discriminate Hnil|].
    { apply collect_collected. left. reflexivity. }
    exists (collect maxChars [] sentences). rewrite Htrim.
    destruct (Z.ltb_spec (Z.of_nat (length (c :: out)))
                (Z.of_nat (length text))) as [_|Hge]; [|lia].
    split; [reflexivity|]. split; intros; lia.
Qed.

Lemma trimToSentence_never_longer_aux text maxChars :
  0 <= maxChars ->
  (length (trimToSentence text maxChars) <= length text)%nat
  /\ (Z.of_nat (length text) <= maxChars ->
      trimToSentence text maxChars = text).
Proof.
  intros Hmax. split.
  - destruct (Z.leb_spec (Z.of_nat (length text)) maxChars) as [Hle|Hgt].
    + unfold trimToSentence.
      rewrite (proj2 (Z.leb_le _ _) Hle). reflexivity.
    + destruct (truncated_form text maxChars Hgt) as (x & -> & _ & Hlt).
      rewrite length_app. simpl. specialize (Hlt Hmax). lia.
  - intros Hle. unfold trimToSentence.
    rewrite (proj2 (Z.leb_le _ _) Hle). reflexivity.
Qed.

(** X12. For a limit that is not negative, [trimToSentence] never
    returns more code units than it was given: a text within the limit
    comes back as it is, and a longer one is cut by at least one unit
    before the ellipsis is added: the result is a body followed by the
    ellipsis, and the body is shorter than the text. *)
Theorem trimToSentence_never_longer :
  forall (text : list N) (maxChars : Z),
    0 <= maxChars ->
    (length (trimToSentence text maxChars) <= length text)%nat
    /\ (Z.of_nat (length text) <= maxChars ->
        trimToSentence text maxChars = text)
    /\ (maxChars < Z.of_nat (length text) ->
        exists body,
          trimToSentence text maxChars = body ++ [ellipsis]
          /\ (length body + 1 <= length text)%nat).
Proof.
  intros text maxChars Hmax.
  destruct (trimToSentence_never_longer_aux text maxChars Hmax) as [Hlen Hsame].
  split; [exact Hlen|]. split; [exact Hsame|].
  intros Hgt.
  destruct (truncated_form text maxChars Hgt) as (x & Hx & _ & Hlt).
  exists (trim x). split; [exact Hx|]. specialize (Hlt Hmax). lia.
Qed.

Lemma trimToSentence_never_longer_witness :
  (length (trimToSentence
             (code_units "Hello world. How are you?! trailing") 20)
   <= length (code_units "Hello world. How are you?! trailing"))%nat
  /\ (Z.of_nat (length (code_units "Hello world. How are you?! trailing"))
      <= 20 ->
      trimToSentence (code_units "Hello world. How are you?! trailing") 20
      = code_units "Hello world. How are you?! trailing")
  /\ (20 < Z.of_nat (length (code_units "Hello world. How are you?! trailing")) ->
      exists body,
        trimToSentence (code_units "Hello world. How are you?! trailing") 20
        = body ++ [ellipsis]
        /\ (length body + 1
            <= length (code_units "Hello world. How are you?! trailing"))%nat).
Proof.
  apply (trimToSentence_never_longer
           (code_units "Hello world. How are you?! trailing") 20).
  vm_compute. discriminate.
Defined.

(** The edges of a trimmed text are not blank. *)
Lemma trimStart_head s c : head (trimStart s) = Some c -> is_white c = false.
Proof.
  induction s as [|x s IH]; simpl; [discriminate|].
  destruct (is_white x) eqn:Hx; [exact IH|]. simpl. congruence.
Qed.

Lemma trimStart_suffix s : exists w, s = w ++ trimStart s.
Proof.
  induction s as [|x s [w IH]]; simpl; [exists []; reflexivity|].
  destruct (is_white x); [|exists []; reflexivity].
  exists (x :: w). simpl. congruence.
Qed.

Lemma last_rev {A} (l : list A) : last (rev l) = head l.
Proof. destruct l as [|x l]; [reflexivity|]. simpl. apply last_snoc. Qed.

Lemma trimEnd_last s c : last (trimEnd s) = Some c -> is_white c = false.
Proof. unfold trimEnd. rewrite last_rev. apply trimStart_head. Qed.

Lemma trimEnd_prefix s : exists w, s = trimEnd s ++ w.
Proof.
  unfold trimEnd. destruct (trimStart_suffix (rev s)) as [w Hw].
  exists (rev w). rewrite <- rev_app_distr, <- Hw, rev_involutive.
  reflexivity.
Qed.

Lemma trim_edges s :
  (forall c, head (trim s) = Some c -> is_white c = false)
  /\ (forall c, last (trim s) = Some c -> is_white c = false).
Proof.
  unfold trim. split; intros c Hc; [|exact (trimEnd_last _ _ Hc)].
  destruct (trimEnd_prefix (trimStart s)) as [w Hw].
  apply (trimStart_head s). rewrite Hw.
  destruct (trimEnd (trimStart s)); [discriminate|exact Hc].
Qed.

(** X13. A text longer than the limit comes back as a body followed by
    the ellipsis, and the body neither starts nor ends with white space:
    there is never a blank before the ellipsis. *)
Theorem trimToSentence_body_is_trimmed :
  forall (text : list N) (maxChars : Z),
    maxChars < Z.of_nat (length text) ->
    exists body,
      trimToSentence text maxChars = body ++ [ellipsis]
      /\ (forall c, head body = Some c -> is_white c = false)
      /\ (forall c, last body = Some c -> is_white c = false).
Proof.
  intros text maxChars Hlong.
  destruct (truncated_form text maxChars Hlong) as (x & Hx & _).
  exists (trim x). split; [exact Hx|]. apply trim_edges.
Qed.

Lemma trimToSentence_body_is_trimmed_witness :
  exists body,
    trimToSentence (code_units "Hello world how are you trailing") 13
    = body ++ [ellipsis]
    /\ (forall c, head body = Some c -> is_white c = false)
    /\ (forall c, last body = Some c -> is_white c = false).
Proof.
  apply (trimToSentence_body_is_trimmed
           (code_units "Hello world how are you trailing") 13).
  vm_compute. reflexivity.
Defined.

(** The last code unit of a trimmed sentence is its last terminator. *)
Lemma terminator_not_white c : is_terminator c = true -> is_white c = false.
Proof.
  unfold is_terminator. rewrite !orb_true_iff, !N.eqb_eq.
  intros [[->| ->]| ->]; reflexivity.
Qed.

Lemma trimStart_keeps_nonwhite x c :
  is_white c = false ->
  exists y, forall w, trimStart (x ++ c :: w) = y ++ c :: w.
Proof.
  intros Hc. induction x as [|a x [y IH]]; simpl.
  - exists []. intros w. rewrite Hc. reflexivity.
  - destruct (is_white a).
    + exists y. exact IH.
    + exists (a :: x). reflexivity.
Qed.

Lemma trimEnd_nonwhite y c : is_white c = false -> trimEnd (y ++ [c]) = y ++ [c].
Proof.
  intros Hc. unfold trimEnd. rewrite rev_unit. simpl. rewrite Hc. simpl.
  rewrite rev_involutive. reflexivity.
Qed.

Lemma trim_ends_with x c :
  is_white c = false ->
  exists y, trim (x ++ [c]) = y ++ [c] /\ trim (x ++ [c; space]) = y ++ [c].
Proof.
  intros Hc. destruct (trimStart_keeps_nonwhite x c Hc) as [y Hy].
  exists y. unfold trim. split.
  - rewrite Hy. apply trimEnd_nonwhite, Hc.
  - rewrite Hy. change (y ++ [c; space]) with (y ++ [c] ++ [space]).
    rewrite app_assoc, trimEnd_snoc_white by reflexivity.
    apply trimEnd_nonwhite, Hc.
Qed.

Lemma sentence_ends_with_terminator m :
  is_sentence m -> exists x c, m = x ++ [c] /\ is_terminator c = true.
Proof.
  intros (body & enders & -> & _ & Hne & _ & Hall).
  destruct (exists_last Hne) as (e & c & ->).
  exists (body ++ e), c. split; [apply app_assoc|].
  rewrite Forall_app, Forall_singleton in Hall. exact (proj2 Hall).
Qed.

(** Once a sentence was taken, what the loop has collected ends with a
    terminator and the blank appended after it. *)
Definition ends_a_sentence (out : list N) : Prop :=
  exists o c, out = o ++ [c; space] /\ is_terminator c = true.

Lemma collect_ends_a_sentence maxChars sentences : forall out,
  Forall is_sentence sentences ->
  ends_a_sentence out ->
  ends_a_sentence (collect maxChars out sentences).
Proof.
  induction sentences as [|s rest IH]; intros out Hall Hout; simpl;
    [exact Hout|].
  apply Forall_cons in Hall as [Hs Hrest].
  destruct (maxChars <? Z.of_nat (length (out ++ s))); [exact Hout|].
  apply IH; [exact Hrest|].
  destruct (sentence_ends_with_terminator s Hs) as (x & c & -> & Hc).
  destruct (trim_ends_with x c (terminator_not_white c Hc)) as (y & -> & _).
  exists (out ++ y), c. split; [|exact Hc].
  rewrite <- !app_assoc. reflexivity.
Qed.

(** X14. When the text is longer than the limit and its first sentence
    (the first match of the regular expression) fits within the limit, the
    result ends at a sentence boundary: the code unit before the ellipsis
    is one of the terminators [.], [!], [?]. *)
Theorem trimToSentence_ends_at_sentence_boundary :
  forall (text : list N) (maxChars : Z) (first : list N) (others : list (list N)),
    maxChars < Z.of_nat (length text) ->
    match_sentences text = Some (first :: others) ->
    Z.of_nat (length first) <= maxChars ->
    exists body c,
      trimToSentence text maxChars = body ++ [c; ellipsis]
      /\ is_terminator c = true.
Proof.
  intros text maxChars first others Hlong Hmatch Hfirst.
  assert (Hall : Forall is_sentence (first :: others)).
  { destruct (scan_decomposes text) as (_ & _ & pre & post & _ & _ & _ & Hs).
    unfold match_sentences in Hmatch.
    destruct (scan Outside text) as [|m ms]; [discriminate|].
    injection Hmatch as <- <-. exact Hs. }
  apply Forall_cons in Hall as [Hs Hrest].
  unfold trimToSentence.
  destruct (Z.leb_spec (Z.of_nat (length text)) maxChars) as [Hle|_]; [lia|].
  rewrite Hmatch. simpl default. cbn [collect]. rewrite app_nil_l.
  destruct (Z.ltb_spec maxChars (Z.of_nat (length first))) as [Hgt|_]; [lia|].
  rewrite app_nil_l.
  assert (Hends : ends_a_sentence
                    (collect maxChars (trim first ++ [space]) others)).
  { apply collect_ends_a_sentence; [exact Hrest|].
    destruct (sentence_ends_with_terminator first Hs) as (x & c & -> & Hc).
    destruct (trim_ends_with x c (terminator_not_white c Hc)) as (y & -> & _).
    exists y, c. split; [|exact Hc]. rewrite <- app_assoc. reflexivity. }
  assert (Hlen : collected maxChars
                   (collect maxChars (trim first ++ [space]) others)).
  { apply collect_collected. right. exists (trim first).
    split; [reflexivity|]. pose proof (trim_length first). lia. }
  apply collected_trim_length in Hlen.
  destruct Hends as (o & c & Hout & Hc). rewrite Hout in *.
  destruct (trim_ends_with o c (terminator_not_white c Hc)) as (y & _ & Hy).
  rewrite Hy in *.
  destruct Hlen as [Hnil|Hlen]; [by apply app_eq_nil in Hnil as [_ ?]|].
  destruct (y ++ [c]) as [|a rest] eqn:Hyc;
    [by apply app_eq_nil in Hyc as [_ ?]|].
  destruct (Z.ltb_spec (Z.of_nat (length (a :: rest)))
              (Z.of_nat (length text))) as [_|Hge]; [|lia].
  exists y, c. split; [|exact Hc].
  rewrite <- Hyc, <- app_assoc. reflexivity.
Qed.

Lemma trimToSentence_ends_at_sentence_boundary_witness :
  exists body c,
    trimToSentence (code_units "Hello world. How are you?! trailing") 20
    = body ++ [c; ellipsis]
    /\ is_terminator c = true.
Proof.
  apply (trimToSentence_ends_at_sentence_boundary
           (code_units "Hello world. How are you?! trailing") 20
           (code_units "Hello world.") [code_units " How are you?!"]);
    vm_compute; first [reflexivity | discriminate].
Defined.

End TrimMore.

(** ** The pocket summary *)

Lemma trimToSentence_total_bound text maxChars :
  1 <= maxChars ->
  Z.of_nat (length (Utils.trimToSentence text maxChars)) <= maxChars + 1.
Proof.
  intros Hmax.
  destruct (Z.leb_spec (Z.of_nat (length text)) maxChars) as [Hle|Hgt].
  - unfold Utils.trimToSentence. rewrite (proj2 (Z.leb_le _ _) Hle). lia.
  - destruct (truncated_form text maxChars Hgt) as (x & -> & Hlen & _).
    rewrite length_app. simpl. specialize (Hlen Hmax). lia.
Qed.

Lemma odd_mod_2 i : (i mod 2 =? 1)%nat = Nat.odd i.
Proof.
  apply Bool.eq_iff_eq_true. rewrite Nat.eqb_eq, Nat.odd_spec. split.
  - intros Hmod. exists (i / 2)%nat. pose proof (Nat.div_mod_eq i 2). lia.
  - intros [k ->]. rewrite Nat.add_comm, Nat.mul_comm.
    rewrite Nat.Div0.mod_add. reflexivity.
Qed.

(** X15. [PocketSummaryDoc] makes one card per item, in order, with the
    question of the item; for a limit of at least 1 (the default is 180)
    the answer on a card has at most one code unit more than the limit, is
    never longer than the answer of the item, and is that answer itself
    when the answer is within the limit.  The cards at odd positions are
    the last of their row. *)
Theorem pocket_cards_are_short :
  forall (items : list PocketSummaryDoc.QAItem) (maxAnswerChars : option Z),
    1 <= default 180 maxAnswerChars ->
    length (PocketSummaryDoc.cards items maxAnswerChars) = length items
    /\ forall i it,
         items !! i = Some it ->
         exists card,
           PocketSummaryDoc.cards items maxAnswerChars !! i = Some card
           /\ PocketSummaryDoc.card_key card = PocketSummaryDoc.qa_id it
           /\ PocketSummaryDoc.card_question card
              = PocketSummaryDoc.qa_question it
           /\ Z.of_nat (length (PocketSummaryDoc.shortAns card))
              <= default 180 maxAnswerChars + 1
           /\ (length (PocketSummaryDoc.shortAns card)
               <= length (PocketSummaryDoc.qa_answer it))%nat
           /\ (Z.of_nat (length (PocketSummaryDoc.qa_answer it))
               <= default 180 maxAnswerChars ->
               PocketSummaryDoc.shortAns card = PocketSummaryDoc.qa_answer it)
           /\ PocketSummaryDoc.isLastInRow card = Nat.odd i.
Proof.
  intros items maxAnswerChars Hmax. unfold PocketSummaryDoc.cards.
  split; [apply length_imap|].
  intros i it Hit. rewrite list_lookup_imap, Hit. simpl.
  eexists. split; [reflexivity|]. simpl.
  assert (Hnl : 0 <= default 180 maxAnswerChars) by lia.
  destruct (trimToSentence_never_longer_aux (PocketSummaryDoc.qa_answer it)
              (default 180 maxAnswerChars) Hnl) as [Hshort Hsame].
  repeat split; try done.
  - apply trimToSentence_total_bound, Hmax.
  - apply odd_mod_2.
Qed.

(** An item of the pocket summary with a long answer. *)
Definition pocket_item : PocketSummaryDoc.QAItem :=
  {| PocketSummaryDoc.qa_id := "q1";
     PocketSummaryDoc.qa_question := "What is a stack?";
     PocketSummaryDoc.qa_answer :=
       code_units "A stack is a linear data structure. It follows LIFO.";
     PocketSummaryDoc.qa_marks := Some 2 |}.

Lemma pocket_cards_are_short_witness :
  length (PocketSummaryDoc.cards [pocket_item] (Some 40)) = length [pocket_item]
  /\ forall i it,
       [pocket_item] !! i = Some it ->
       exists card,
         PocketSummaryDoc.cards [pocket_item] (Some 40) !! i = Some card
         /\ PocketSummaryDoc.card_key card = PocketSummaryDoc.qa_id it
         /\ PocketSummaryDoc.card_question card
            = PocketSummaryDoc.qa_question it
         /\ Z.of_nat (length (PocketSummaryDoc.shortAns card))
            <= default 180 (Some 40) + 1
         /\ (length (PocketSummaryDoc.shortAns card)
             <= length (PocketSummaryDoc.qa_answer it))%nat
         /\ (Z.of_nat (length (PocketSummaryDoc.qa_answer it))
             <= default 180 (Some 40) ->
             PocketSummaryDoc.shortAns card = PocketSummaryDoc.qa_answer it)
         /\ PocketSummaryDoc.isLastInRow card = Nat.odd i.
Proof.
  apply (pocket_cards_are_short [pocket_item] (Some 40)).
  vm_compute. discriminate.
Defined.

Example pocket_card_example :
  PocketSummaryDoc.shortAns <$> PocketSummaryDoc.cards [pocket_item] (Some 40)
  = [code_units "A stack is a linear data structure." ++ [Utils.ellipsis]].
Proof. vm_compute. reflexivity. Qed.

(** ** The answer editor *)

Lemma slice_to_take s (n : nat) :
  (n <= length s)%nat -> Utils.slice_to s (Z.of_nat n) = take n s.
Proof.
  intros Hn. unfold Utils.slice_to.
  destruct (Z.ltb_spec (Z.of_nat n) 0); [lia|].
  f_equal. lia.
Qed.

Lemma slice_from_drop s (n : nat) :
  (n <= length s)%nat -> EditorPanel.slice_from s (Z.of_nat n) = drop n s.
Proof.
  intros Hn. unfold EditorPanel.slice_from, EditorPanel.clamp.
  destruct (Z.ltb_spec (Z.of_nat n) 0); [lia|].
  f_equal. lia.
Qed.

Lemma slice_take_drop s (a b : nat) :
  (a <= b)%nat -> (b <= length s)%nat ->
  EditorPanel.slice s (Z.of_nat a) (Z.of_nat b) = take (b - a) (drop a s).
Proof.
  intros Hab Hb. unfold EditorPanel.slice, EditorPanel.clamp.
  destruct (Z.ltb_spec (Z.of_nat a) 0); [lia|].
  destruct (Z.ltb_spec (Z.of_nat b) 0); [lia|].
  f_equal; [lia|f_equal; lia].
Qed.

Lemma split_at_selection {A} (l : list A) (a b : nat) :
  (a <= b)%nat -> l = take a l ++ take (b - a) (drop a l) ++ drop b l.
Proof.
  intros Hab. transitivity (take a l ++ drop a l);
    [symmetry; apply take_drop|].
  f_equal.
  transitivity (take (b - a) (drop a l) ++ drop (b - a) (drop a l));
    [symmetry; apply take_drop|].
  f_equal. rewrite drop_drop. f_equal. lia.
Qed.

(** X16. [insertDiagram] on a text area replaces the selection by the
    image tag and keeps the text on both sides: the new text is the text
    before the selection, the tag, and the text after the selection; the
    caret is put right after the tag; [onInsertDiagram] is called.  The
    selection that is replaced is the text [citeSelection] would cite.
    Without a text area the tag is appended to the value on a new line and
    [onInsertDiagram] is not called. *)
Theorem insertDiagram_replaces_selection :
  forall (el : EditorPanel.Textarea) (value path : list N),
    (EditorPanel.selectionStart el <= EditorPanel.selectionEnd el)%nat ->
    (EditorPanel.selectionEnd el <= length (EditorPanel.el_value el))%nat ->
    let v := EditorPanel.el_value el in
    let a := EditorPanel.selectionStart el in
    let b := EditorPanel.selectionEnd el in
    let r := EditorPanel.insertDiagram (Some el) value path in
    let selected := EditorPanel.slice v (Z.of_nat a) (Z.of_nat b) in
    v = take a v ++ selected ++ drop b v
    /\ EditorPanel.next r = take a v ++ EditorPanel.tag path ++ drop b v
    /\ EditorPanel.caret r = Some (a + length (EditorPanel.tag path))%nat
    /\ EditorPanel.notified r = true
    /\ ((a < b)%nat -> EditorPanel.citeSelection (Some el) = Some selected)
    /\ (a = b -> EditorPanel.citeSelection (Some el) = None)
    /\ EditorPanel.insertDiagram None value path
       = {| EditorPanel.next := value ++ [10%N] ++ EditorPanel.tag path;
            EditorPanel.caret := None;
            EditorPanel.notified := false |}.
Proof.
  intros el value path Hab Hb. cbv zeta.
  unfold EditorPanel.insertDiagram, EditorPanel.citeSelection.
  cbn [EditorPanel.next EditorPanel.caret EditorPanel.notified].
  rewrite !slice_take_drop by assumption.
  rewrite slice_to_take, slice_from_drop by lia.
  repeat split.
  - apply split_at_selection, Hab.
  - rewrite length_take. do 2 f_equal. lia.
  - intros Hlt. destruct (Nat.eqb_spec (EditorPanel.selectionStart el)
                            (EditorPanel.selectionEnd el)); [lia|reflexivity].
  - intros ->. rewrite Nat.eqb_refl. reflexivity.
Qed.

(** A text area with the word in the middle selected. *)
Definition example_textarea : EditorPanel.Textarea :=
  {| EditorPanel.el_value := code_units "A stack is LIFO.";
     EditorPanel.selectionStart := 2;
     EditorPanel.selectionEnd := 7 |}.

Lemma insertDiagram_replaces_selection_witness :
  let v := EditorPanel.el_value example_textarea in
  let a := EditorPanel.selectionStart example_textarea in
  let b := EditorPanel.selectionEnd example_textarea in
  let r := EditorPanel.insertDiagram (Some example_textarea) v
             (code_units "/d.png") in
  let selected := EditorPanel.slice v (Z.of_nat a) (Z.of_nat b) in
  v = take a v ++ selected ++ drop b v
  /\ EditorPanel.next r
     = take a v ++ EditorPanel.tag (code_units "/d.png") ++ drop b v
  /\ EditorPanel.caret r
     = Some (a + length (EditorPanel.tag (code_units "/d.png")))%nat
  /\ EditorPanel.notified r = true
  /\ ((a < b)%nat ->
      EditorPanel.citeSelection (Some example_textarea) = Some selected)
  /\ (a = b -> EditorPanel.citeSelection (Some example_textarea) = None)
  /\ EditorPanel.insertDiagram None v (code_units "/d.png")
     = {| EditorPanel.next :=
            v ++ [10%N] ++ EditorPanel.tag (code_units "/d.png");
          EditorPanel.caret := None;
          EditorPanel.notified := false |}.
Proof.
  apply (insertDiagram_replaces_selection example_textarea
           (EditorPanel.el_value example_textarea) (code_units "/d.png"));
    vm_compute; lia.
Defined.

(** The tag is the markdown image, and the selected word is replaced. *)
Example insert_diagram_example :
  EditorPanel.tag (code_units "/d.png") = code_units "![diagram](/d.png)"
  /\ EditorPanel.next
       (EditorPanel.insertDiagram (Some example_textarea)
          (EditorPanel.el_value example_textarea) (code_units "/d.png"))
     = code_units "A ![diagram](/d.png) is LIFO."
  /\ EditorPanel.citeSelection (Some example_textarea)
     = Some (code_units "stack").
Proof. vm_compute. repeat split. Qed.

(** ** The generation settings *)

(** What holds of the settings the wizard can reach. *)
Definition settings_ok (s : NewJobWizard.GenerationSettings) : Prop :=
  NoDup (NewJobWizard.marks_to_generate s)
  /\ NewJobWizard.marks_to_generate s ⊆ [2; 5; 10]
  /\ forall mark,
       mark ∈ [2; 5; 10] ->
       exists n, NewJobWizard.questions_per_mark s !! mark = Some n /\ n <> 0.

Lemma initial_settings_ok : settings_ok NewJobWizard.initial.
Proof.
  split; [|split].
  - apply (bool_decide_unpack _). vm_compute. exact I.
  - done.
  - intros mark Hmark. unfold NewJobWizard.initial. simpl.
    repeat (apply elem_of_cons in Hmark as [-> |Hmark];
            [eexists; split; [reflexivity|done]|]).
    by apply elem_of_nil in Hmark.
Qed.

Lemma step_settings_ok s s' :
  NewJobWizard.step s s' -> settings_ok s -> settings_ok s'.
Proof.
  intros Hstep (Hnodup & Hsub & Hcounts).
  destruct Hstep as [s mark Hmark|s mark parsed Hmark|s v|s b|s b];
    try (split; [|split]; assumption).
  - split; [|split]; [| |exact Hcounts]; simpl.
    + destruct (decide (mark ∈ NewJobWizard.marks_to_generate s)) as [Hin|Hnin].
      * rewrite bool_decide_eq_true_2 by exact Hin. simpl.
        apply NoDup_filter, Hnodup.
      * rewrite bool_decide_eq_false_2 by exact Hnin. simpl.
        apply NoDup_app. repeat split; [exact Hnodup| |apply NoDup_singleton].
        intros m Hm Hm'. apply list_elem_of_singleton in Hm'. congruence.
    + destruct (bool_decide (mark ∈ NewJobWizard.marks_to_generate s)); simpl.
      * intros m Hm. apply list_elem_of_filter in Hm as [_ Hm]. auto.
      * intros m Hm. apply elem_of_app in Hm as [Hm|Hm]; [auto|].
        apply list_elem_of_singleton in Hm. congruence.
  - split; [|split]; [exact Hnodup|exact Hsub|]. simpl.
    intros m Hm. destruct (decide (mark = m)) as [->|Hne].
    + rewrite lookup_insert_eq. eexists. split; [reflexivity|].
      destruct parsed as [n|]; [|done]. destruct (Z.eqb_spec n 0); done.
    + rewrite lookup_insert_ne by exact Hne. apply Hcounts, Hm.
Qed.

Lemma reachable_settings_ok s : NewJobWizard.reachable s -> settings_ok s.
Proof.
  induction 1 as [|s s' _ IH Hstep]; [apply initial_settings_ok|].
  exact (step_settings_ok s s' Hstep IH).
Qed.

(** X17. Whatever the user does on the settings step of the wizard, the
    marks to generate stay a list without repetition of marks among 2, 5
    and 10 (in the order in which they were last checked), and each of 2,
    5 and 10 keeps a count that is an integer other than 0. *)
Theorem wizard_settings_stay_valid :
  forall s : NewJobWizard.GenerationSettings,
    NewJobWizard.reachable s ->
    NoDup (NewJobWizard.marks_to_generate s)
    /\ NewJobWizard.marks_to_generate s ⊆ [2; 5; 10]
    /\ forall mark,
         mark ∈ [2; 5; 10] ->
         exists n, NewJobWizard.questions_per_mark s !! mark = Some n /\ n <> 0.
Proof. intros s Hs. exact (reachable_settings_ok s Hs). Qed.

(** The settings after the mark 2 was unchecked and checked again, and the
    count of 5 was cleared. *)
Definition rechecked_settings : NewJobWizard.GenerationSettings :=
  NewJobWizard.onCountChange 5 None
    (NewJobWizard.onMarkChecked 2 true
       (NewJobWizard.onMarkChecked 2 false NewJobWizard.initial)).

Lemma rechecked_settings_reachable : NewJobWizard.reachable rechecked_settings.
Proof.
  unfold rechecked_settings.
  eapply NewJobWizard.reachable_step;
    [eapply NewJobWizard.reachable_step;
       [eapply NewJobWizard.reachable_step; [apply NewJobWizard.reachable_initial|]|]|].
  - exact (NewJobWizard.click_mark NewJobWizard.initial 2 ltac:(set_solver)).
  - exact (NewJobWizard.click_mark
             (NewJobWizard.onMarkChecked 2 false NewJobWizard.initial) 2
             ltac:(set_solver)).
  - apply NewJobWizard.type_count. vm_compute. set_solver.
Defined.

Lemma wizard_settings_stay_valid_witness :
  NoDup (NewJobWizard.marks_to_generate rechecked_settings)
  /\ NewJobWizard.marks_to_generate rechecked_settings ⊆ [2; 5; 10]
  /\ forall mark,
       mark ∈ [2; 5; 10] ->
       exists n,
         NewJobWizard.questions_per_mark rechecked_settings !! mark = Some n
         /\ n <> 0.
Proof.
  apply (wizard_settings_stay_valid rechecked_settings).
  apply rechecked_settings_reachable.
Defined.

Example rechecked_settings_example :
  NewJobWizard.marks_to_generate rechecked_settings = [5; 10; 2]
  /\ NewJobWizard.questions_per_mark rechecked_settings !! 5 = Some 1.
Proof. vm_compute. split; reflexivity. Qed.

Lemma primaryMark_cases requested it :
  let m := UseAutoQAGeneration.primaryMark requested it in
  m = 10 \/ m = 5 \/ m = 2 \/ head requested = Some m.
Proof.
  simpl. unfold UseAutoQAGeneration.primaryMark, UseAutoQAGeneration.markKeys.
  rewrite !filter_cons, filter_nil.
  repeat case_decide; simpl; auto.
  destruct requested as [|first rest]; simpl; auto.
  destruct (Z.eqb_spec first 0); auto.
Qed.

(** X18. With the settings of the wizard, the mark shown for a generated
    item in the preview is always 2, 5 or 10, whatever the backend
    returned for the item. *)
Theorem wizard_preview_marks_are_valid :
  forall (s : NewJobWizard.GenerationSettings)
         (items : option (list RawItem)),
    NewJobWizard.reachable s ->
    Forall (fun item => pv_marks item ∈ [2; 5; 10])
      (runGeneration_preview (NewJobWizard.marks_to_generate s) items).
Proof.
  intros s items Hs.
  assert (Hsub : NewJobWizard.marks_to_generate s ⊆ [2; 5; 10])
    by apply (reachable_settings_ok s Hs).
  unfold runGeneration_preview. apply Forall_fmap, Forall_forall.
  intros it _. simpl.
  destruct (primaryMark_cases (NewJobWizard.marks_to_generate s) it)
    as [->|[->|[->|Hhead]]]; [set_solver..|].
  apply Hsub. destruct (NewJobWizard.marks_to_generate s) as [|first rest];
    [done|].
  injection Hhead as Hhead. rewrite <- Hhead. left.
Qed.

Lemma wizard_preview_marks_are_valid_witness :
  Forall (fun item => pv_marks item ∈ [2; 5; 10])
    (runGeneration_preview (NewJobWizard.marks_to_generate rechecked_settings)
       (Some [odd_mark_result; stack_result])).
Proof.
  apply (wizard_preview_marks_are_valid rechecked_settings
           (Some [odd_mark_result; stack_result])).
  apply rechecked_settings_reachable.
Defined.

(** ** The order of the mock questions *)

(** The question number [i] of [mark], without what comes from the clock. *)
Definition mock_pattern (mark : Z) (i : nat) : GeneratedQuestion :=
  without_clock (Mock.question "" mark i 0).

Lemma mock_push_pattern c mark l : forall acc,
  without_clock <$> Mock.questions (fold_left (Mock.push c mark) l acc)
  = (without_clock <$> Mock.questions acc) ++ (mock_pattern mark <$> l).
Proof.
  induction l as [|i l IH]; intros acc; simpl.
  - rewrite app_nil_r. reflexivity.
  - rewrite IH. simpl. rewrite fmap_app, <- app_assoc. reflexivity.
Qed.

Lemma mock_for_mark_pattern c questionsPerMark acc mark :
  without_clock <$> Mock.questions (Mock.for_mark c questionsPerMark acc mark)
  = (without_clock <$> Mock.questions acc)
    ++ (mock_pattern mark <$> seq 0 (asked questionsPerMark mark)).
Proof.
  unfold Mock.for_mark, asked.
  destruct (questionsPerMark !! mark) as [n|]; simpl.
  - apply mock_push_pattern.
  - rewrite app_nil_r. reflexivity.
Qed.

(** X19. The questions [mockGenerateQuestions] returns are, for each
    requested mark in the order requested, the questions number 0, 1, ...
    of that mark up to its count; apart from the id and the time stamp the
    question number [i] of a mark is always the same, NOT_FOUND when [i] is
    a multiple of 5, else NEEDS_REVIEW when [i] is a multiple of 3, else
    FOUND.  So every mark with a positive count starts with a NOT_FOUND
    question. *)
Theorem mock_questions_in_order :
  forall (c : Clock) (requested : list Z) (questionsPerMark : gmap Z Z),
    without_clock
      <$> Mock.questions (Mock.mockGenerateQuestions c requested questionsPerMark)
    = concat ((fun mark =>
                 mock_pattern mark <$> seq 0 (asked questionsPerMark mark))
              <$> requested)
    /\ forall mark i,
         marks (mock_pattern mark i) = mark
         /\ status (mock_pattern mark i)
            = if (i mod 5 =? 0)%nat then NOT_FOUND
              else if (i mod 3 =? 0)%nat then NEEDS_REVIEW else FOUND.
Proof.
  intros c requested questionsPerMark. split; [|intros mark i; split; reflexivity].
  unfold Mock.mockGenerateQuestions.
  assert (H : forall ms acc,
            without_clock
              <$> Mock.questions
                    (fold_left (Mock.for_mark c questionsPerMark) ms acc)
            = (without_clock <$> Mock.questions acc)
              ++ concat ((fun mark =>
                            mock_pattern mark
                              <$> seq 0 (asked questionsPerMark mark))
                         <$> ms)).
  { induction ms as [|m ms IH]; intros acc.
    - simpl. rewrite app_nil_r. reflexivity.
    - cbn [fold_left]. rewrite IH, mock_for_mark_pattern, <- app_assoc.
      reflexivity. }
  rewrite H. reflexivity.
Qed.

Example mock_questions_in_order_example :
  status <$> Mock.questions
               (Mock.mockGenerateQuestions example_clock [5; 2]
                  {[ 2 := 7; 5 := 1; 10 := 4 ]})
  = [NOT_FOUND;
     NOT_FOUND; FOUND; FOUND; NEEDS_REVIEW; FOUND; NOT_FOUND; NEEDS_REVIEW].
Proof. vm_compute. reflexivity. Qed.
